(** * Customers page (src/pages/index.tsx): a shallow embedding

    The page is one React component, [Home].  It reads the customer list
    through the [useSWR] hook with the module-level [fetcher], shows it as a
    table, and adds a customer through the async handler
    [handleAddCustomer].

    The embedding has three layers:
    - [JS]: the fragment of ECMAScript the page relies on (values, the
      abstract operations ToBoolean, ToString, property reads, and
      JSON.stringify);
    - [Async]: async functions as computations over an environment that
      settles the promises of the platform ([fetch], [Response.json]) and
      records every effect in a log;
    - [Page]: [fetcher], [handleAddCustomer] and the rendering of [Home],
      translated line by line. *)

From Stdlib Require Import String Ascii List ZArith Bool Lia.
Import ListNotations.
Local Open Scope string_scope.
Set Warnings "-register-all".

(* ================================================================== *)
(** ** ECMAScript fragment *)
(* ================================================================== *)

Module JS.

(** A JavaScript number is observed by the page in three ways only: as a
    condition (ToBoolean), as text (ToString) and by JSON.stringify, which
    asks whether it is finite.  A number is modelled by these three
    observations; no arithmetic is done on numbers anywhere in the page. *)
Record JSNumber := mkNumber
  { num_truthy : bool;      (* false exactly for +0, -0 and NaN *)
    num_finite : bool;      (* false for NaN and the infinities  *)
    num_text   : string }.  (* Number::toString, radix 10         *)

(** Values: what JSON.parse can return, [undefined], and Error instances
    (built with [new Error(..)] or made by the platform).  Strings are
    sequences of bytes, read as the UTF-8 encoding of the text.  An object
    holds its own enumerable properties in creation order, each key once. *)
Inductive value : Type :=
| VUndefined
| VNull
| VBool (b : bool)
| VNumber (n : JSNumber)
| VString (s : string)
| VArray (elems : list value)
| VObject (props : list (string * value))
| VError (name message : string).

(** A completion record: the normal result or the thrown value. *)
Inductive completion (A : Type) : Type :=
| Normal (a : A)
| Throw (e : value).
Arguments Normal {A} a.
Arguments Throw {A} e.

Definition TypeError (msg : string) : value := VError "TypeError" msg.

(** ToBoolean (ECMA-262 7.1.2). *)
Definition ToBoolean (v : value) : bool :=
  match v with
  | VUndefined | VNull => false
  | VBool b => b
  | VNumber n => num_truthy n
  | VString s => negb (String.eqb s "")
  | VArray _ | VObject _ | VError _ _ => true
  end.

(** [a || b] on two values already computed: the page's only use has a
    literal on the right. *)
Definition or_else (a b : value) : value := if ToBoolean a then a else b.

(** Own property lookup in an object's property list. *)
Fixpoint own_property (props : list (string * value)) (P : string) : option value :=
  match props with
  | [] => None
  | (k, v) :: rest => if String.eqb k P then Some v else own_property rest P
  end.

(** The text of the TypeError an engine raises when a property of [null] or
    [undefined] is read.  The wording is V8's; only the fact that it is a
    TypeError is used in the theorems. *)
Definition nullish_read_message (what P : string) : string :=
  "Cannot read properties of " ++ what ++ " (reading '" ++ P ++ "')".

(** [v.P] for a property name [P] that no built-in prototype defines and
    that is neither an array index nor [length] (the page reads
    [message] only, which Error instances alone carry). *)
Definition Get (v : value) (P : string) : completion value :=
  match v with
  | VUndefined => Throw (TypeError (nullish_read_message "undefined" P))
  | VNull => Throw (TypeError (nullish_read_message "null" P))
  | VBool _ | VNumber _ | VString _ | VArray _ => Normal VUndefined
  | VObject props =>
      match own_property props P with
      | Some x => Normal x
      | None => Normal VUndefined
      end
  | VError name message =>
      if String.eqb P "message" then Normal (VString message)
      else if String.eqb P "name" then Normal (VString name)
      else Normal VUndefined
  end.

(** ToString (ECMA-262 7.1.17).  Arrays go through Array.prototype.join,
    plain objects through Object.prototype.toString unless an own
    [toString] property (never callable in parsed JSON) hides it, in which
    case OrdinaryToPrimitive finds no method and throws. *)
Fixpoint ToString (v : value) : completion string :=
  match v with
  | VUndefined => Normal "undefined"
  | VNull => Normal "null"
  | VBool true => Normal "true"
  | VBool false => Normal "false"
  | VNumber n => Normal (num_text n)
  | VString s => Normal s
  | VArray elems =>
      (fix join (first : bool) (l : list value) : completion string :=
         match l with
         | [] => Normal ""
         | x :: rest =>
             match (match x with
                    | VUndefined | VNull => Normal ""
                    | _ => ToString x
                    end) with
             | Throw e => Throw e
             | Normal s =>
                 match join false rest with
                 | Throw e => Throw e
                 | Normal t => Normal ((if first then "" else ",") ++ s ++ t)
                 end
             end
         end) true elems
  | VObject props =>
      match own_property props "toString" with
      | Some _ => Throw (TypeError "Cannot convert object to primitive value")
      | None => Normal "[object Object]"
      end
  | VError name message =>
      Normal (if String.eqb name "" then message
              else if String.eqb message "" then name
              else name ++ ": " ++ message)
  end.

(** [new Error(message)] with a message that is not [undefined]. *)
Definition new_Error (message : value) : completion value :=
  match ToString message with
  | Normal s => Normal (VError "Error" s)
  | Throw e => Throw e
  end.

(** *** JSON.stringify *)

Definition dquote : string := String "034"%char "".
Definition backslash : string := String "092"%char "".

Definition hex_digit (n : nat) : ascii :=
  match n with
  | 0 => "0" | 1 => "1" | 2 => "2" | 3 => "3" | 4 => "4"
  | 5 => "5" | 6 => "6" | 7 => "7" | 8 => "8" | 9 => "9"
  | 10 => "a" | 11 => "b" | 12 => "c" | 13 => "d" | 14 => "e"
  | _ => "f"
  end%char.

(** One code unit of QuoteJSONString (ECMA-262 25.5.2.3). *)
Definition quote_char (c : ascii) : string :=
  let n := nat_of_ascii c in
  if Nat.eqb n 8 then backslash ++ "b"
  else if Nat.eqb n 9 then backslash ++ "t"
  else if Nat.eqb n 10 then backslash ++ "n"
  else if Nat.eqb n 12 then backslash ++ "f"
  else if Nat.eqb n 13 then backslash ++ "r"
  else if Nat.eqb n 34 then backslash ++ dquote
  else if Nat.eqb n 92 then backslash ++ backslash
  else if Nat.ltb n 32 then
    backslash ++ "u00" ++ String (hex_digit (n / 16)) (String (hex_digit (n mod 16)) "")
  else String c "".

Fixpoint quote_chars (s : string) : string :=
  match s with
  | EmptyString => ""
  | String c rest => quote_char c ++ quote_chars rest
  end.

Definition QuoteJSONString (s : string) : string :=
  dquote ++ quote_chars s ++ dquote.

Fixpoint join_with (sep : string) (parts : list string) : string :=
  match parts with
  | [] => ""
  | [p] => p
  | p :: rest => p ++ sep ++ join_with sep rest
  end.

(** SerializeJSONProperty without replacer and indentation: [None] is
    [undefined].  An object member whose value serializes to [undefined]
    is left out with its key; an array element that does is written
    [null].  Error instances have no enumerable own property. *)
Fixpoint SerializeJSONProperty (v : value) : option string :=
  match v with
  | VUndefined => None
  | VNull => Some "null"
  | VBool true => Some "true"
  | VBool false => Some "false"
  | VNumber n => Some (if num_finite n then num_text n else "null")
  | VString s => Some (QuoteJSONString s)
  | VArray elems =>
      Some ("[" ++ join_with ","
                     (map (fun x => match SerializeJSONProperty x with
                                    | Some t => t
                                    | None => "null"
                                    end) elems) ++ "]")
  | VObject props =>
      Some ("{" ++ join_with ","
                     (flat_map (fun kv => match SerializeJSONProperty (snd kv) with
                                          | Some t => [QuoteJSONString (fst kv) ++ ":" ++ t]
                                          | None => []
                                          end) props) ++ "}")
  | VError _ _ => Some "{}"
  end.

Definition JSON_stringify (v : value) : option string := SerializeJSONProperty v.

(** The text of one member with a string value, as JSON.stringify writes it. *)
Definition member_text (k v : string) : string :=
  QuoteJSONString k ++ ":" ++ QuoteJSONString v.

(** The members JSON.stringify writes for an object: those whose value
    does not serialize to [undefined], in order. *)
Definition written_members (props : list (string * value)) : list (string * value) :=
  filter (fun kv => match SerializeJSONProperty (snd kv) with
                    | Some _ => true
                    | None => false
                    end) props.

End JS.

(* ================================================================== *)
(** ** Promises, the platform and the effect log *)
(* ================================================================== *)

Module Async.
Import JS.
Local Open Scope list_scope.

(** A settled promise. *)
Inductive Settled (A : Type) : Type :=
| Fulfilled (a : A)
| Rejected (reason : value).
Arguments Fulfilled {A} a.
Arguments Rejected {A} reason.

(** What the page sees of a [Response]: its status, and what its [json()]
    promise settles to ([Rejected] when the body is not valid JSON). *)
Record Response := mkResponse
  { status : Z;
    json_body : Settled value }.

(** [response.ok]: the status is in the range 200-299. *)
Definition ok (r : Response) : bool :=
  ((200 <=? status r) && (status r <=? 299))%Z.

(** The arguments of a [fetch] call. *)
Record Request := mkRequest
  { url : string;
    method : string;
    headers : list (string * string);
    body : option string }.

(** [fetch(url)]: a GET without headers or body. *)
Definition GET (u : string) : Request :=
  {| url := u; method := "GET"; headers := []; body := None |}.

(** Every effect of the page, in the order it happens. *)
Inductive Event : Type :=
| EvFetch (req : Request)             (* fetch(..) is called *)
| EvResponse (r : Settled Response)   (* the promise of fetch settles *)
| EvJson (r : Settled value)          (* json() is called on the response and settles *)
| EvMutate                            (* SWR's bound mutate() is called *)
| EvMutateSettled (r : Settled value) (* the promise of mutate() settles *)
| EvSetFirstName (s : string)
| EvSetLastName (s : string)
| EvSetEmail (s : string)
| EvSetBusinessName (s : string)
| EvSetOpen (b : bool)
| EvAlert (text : string).

(** The world outside the page: what the promise of [fetch] settles to
    for a request, and the data the SWR cache holds for the list when the
    handler starts.  The POST of the handler and the GET of the fetcher
    are different requests, so a function of the request answers both. *)
Record World := mkWorld
  { network : Request -> Settled Response;
    cached : value }.

(** The body of an async function: it reads the world, appends to the log
    and completes normally or by a throw. *)
Definition M (A : Type) : Type := World -> list Event -> list Event * completion A.

Definition ret {A} (a : A) : M A := fun _ log => (log, Normal a).

Definition throw {A} (e : value) : M A := fun _ log => (log, Throw e).

Definition bind {A B} (m : M A) (k : A -> M B) : M B :=
  fun w log =>
    match m w log with
    | (log', Normal a) => k a w log'
    | (log', Throw e) => (log', Throw e)
    end.

(** [try { m } catch (error) { handler error }]. *)
Definition try_catch {A} (m : M A) (handler : value -> M A) : M A :=
  fun w log =>
    match m w log with
    | (log', Normal a) => (log', Normal a)
    | (log', Throw e) => handler e w log'
    end.

Definition emit (e : Event) : M unit := fun _ log => (log ++ [e], Normal tt).

(** A synchronous operation that may throw. *)
Definition lift {A} (c : completion A) : M A := fun _ log => (log, c).

(** [await p] for a promise that settles to [s]. *)
Definition await {A} (s : Settled A) : M A :=
  match s with
  | Fulfilled a => ret a
  | Rejected e => throw e
  end.

Declare Scope async_scope.
Delimit Scope async_scope with async.
Notation "x <- m ;; k" := (bind m (fun x => k))
  (at level 61, m at next level, right associativity) : async_scope.
Notation "m ;; k" := (bind m (fun _ => k))
  (at level 61, right associativity) : async_scope.

(** [await fetch(..)]. *)
Definition fetch (req : Request) : M Response :=
  fun w log =>
    let r := network w req in
    await r w (log ++ [EvFetch req; EvResponse r]).

(** [await response.json()]. *)
Definition json (response : Response) : M value :=
  fun w log => await (json_body response) w (log ++ [EvJson (json_body response)]).

Definition alert (text : string) : M unit := emit (EvAlert text).

(** Calling an async function: the effects of the call and what the
    promise it returns settles to. *)
Definition call {A} (m : M A) (w : World) : list Event * Settled A :=
  match m w [] with
  | (log, Normal a) => (log, Fulfilled a)
  | (log, Throw e) => (log, Rejected e)
  end.

End Async.

(* ================================================================== *)
(** ** The page *)
(* ================================================================== *)

Module Page.
Import JS Async.
Local Open Scope async_scope.

(** *** Declared types (lines 23-35) *)

Module Customer.
Record t := mk
  { firstName : string;
    lastName : string;
    email : string;
    businessName : option string }.
End Customer.

Definition Customers := list Customer.t.

Module ApiError.
Record t := mk
  { code : string;
    message : string }.
End ApiError.

(** Reading a value at a declared type: [None] when the value does not
    inhabit the type.  TypeScript erases the types, so [fetcher] returns
    and throws plain values; these readings say which of them the typed
    rendering below is about. *)
Definition Customer_of_value (v : value) : option Customer.t :=
  match v with
  | VObject props =>
      match own_property props "firstName",
            own_property props "lastName",
            own_property props "email" with
      | Some (VString f), Some (VString l), Some (VString e) =>
          match own_property props "businessName" with
          | None | Some VUndefined => Some (Customer.mk f l e None)
          | Some (VString b) => Some (Customer.mk f l e (Some b))
          | Some _ => None
          end
      | _, _, _ => None
      end
  | _ => None
  end.

Fixpoint all_some {A} (l : list (option A)) : option (list A) :=
  match l with
  | [] => Some []
  | Some a :: rest =>
      match all_some rest with
      | Some l' => Some (a :: l')
      | None => None
      end
  | None :: _ => None
  end%list.

Definition Customers_of_value (v : value) : option Customers :=
  match v with
  | VArray elems => all_some (map Customer_of_value elems)
  | _ => None
  end.

Definition ApiError_of_value (v : value) : option ApiError.t :=
  match v with
  | VObject props =>
      match own_property props "code", own_property props "message" with
      | Some (VString c), Some (VString m) => Some (ApiError.mk c m)
      | _, _ => None
      end
  | _ => None
  end.

(** *** fetcher (lines 37-42) *)

Definition fetcher (url : string) : M value :=
  response <- fetch (GET url);;
  body <- json response;;
  if negb (ok response) then throw body
  else ret body.

(** Line 46: the key, which is the URL handed to the fetcher. *)
Definition customers_key : string := "/api/customers".

(** *** The bound mutate (line 45) *)

(** Modelled from the spec: [mutate] is the function the hook returns
    bound to its key; SWR is not among the sources.  Section 4.1's
    revalidate() forces a fresh fetch of the same resource, so a call
    without arguments makes the hook call its fetcher again with the key,
    and the promise of [mutate()] settles once that call has.  On a fetch
    that fails the promise is taken to fulfil with the data cached before,
    as the bound mutate of SWR does (the hook catches the rejection of the
    fetcher and keeps it as its error); section 4.1's wording that the
    promise propagates the error is not followed. *)
Definition mutate : M value :=
  fun w log =>
    match fetcher customers_key w (log ++ [EvMutate])%list with
    | (log', Normal d) => ((log' ++ [EvMutateSettled (Fulfilled d)])%list, Normal d)
    | (log', Throw _) =>
        ((log' ++ [EvMutateSettled (Fulfilled (cached w))])%list, Normal (cached w))
    end.

(** The data the cache holds after a revalidation in world [w]. *)
Definition revalidated (w : World) : value :=
  match snd (call (fetcher customers_key) w) with
  | Fulfilled d => d
  | Rejected _ => cached w
  end.

(** The events of [await mutate()]: the call, the events of the fetcher,
    the settlement. *)
Definition revalidation_log (w : World) : list Event :=
  ([EvMutate] ++ fst (call (fetcher customers_key) w)
     ++ [EvMutateSettled (Fulfilled (revalidated w))])%list.

(** *** Component state (lines 51-55) *)

Record State := mkState
  { open : bool;
    firstName : string;
    lastName : string;
    email : string;
    businessName : string }.

Definition initial_state : State :=
  {| open := false; firstName := ""; lastName := ""; email := ""; businessName := "" |}.

(** The state setters returned by [useState]. *)
Definition apply_event (s : State) (e : Event) : State :=
  match e with
  | EvSetFirstName x => mkState (open s) x (lastName s) (email s) (businessName s)
  | EvSetLastName x => mkState (open s) (firstName s) x (email s) (businessName s)
  | EvSetEmail x => mkState (open s) (firstName s) (lastName s) x (businessName s)
  | EvSetBusinessName x => mkState (open s) (firstName s) (lastName s) (email s) x
  | EvSetOpen b => mkState b (firstName s) (lastName s) (email s) (businessName s)
  | _ => s
  end.

(** The state after the effects of a log. *)
Definition replay (s : State) (log : list Event) : State :=
  fold_left apply_event log s.

(** *** handleAddCustomer (lines 57-89) *)

(** Lines 58-63: the properties of the object literal, in order. *)
Definition newCustomer_props (s : State) : list (string * value) :=
  [ ("firstName", VString (firstName s));
    ("lastName", VString (lastName s));
    ("email", VString (email s));
    ("businessName",
      if ToBoolean (VString (businessName s))
      then VString (businessName s)
      else VUndefined) ]%list.

Definition newCustomer (s : State) : value := VObject (newCustomer_props s).

(** The arguments of the [fetch] call of lines 66-70. *)
Definition create_request (s : State) : Request :=
  {| url := "/api/customers";
     method := "POST";
     headers := [("Content-Type", "application/json")]%list;
     body := JSON_stringify (newCustomer s) |}.

Definition fallback_message : string := "Failed to add customer".

(** Lines 66-85: the block under [try]. *)
Definition try_block (s : State) : M unit :=
  res <- fetch (create_request s);;
  (if negb (ok res) then
     errorData <- json res;;
     m <- lift (Get errorData "message");;
     e <- lift (new_Error (or_else m (VString fallback_message)));;
     throw e
   else ret tt);;
  _ <- mutate;;
  emit (EvSetFirstName "");;
  emit (EvSetLastName "");;
  emit (EvSetEmail "");;
  emit (EvSetBusinessName "");;
  emit (EvSetOpen false).

(** The template literal of line 87. *)
Definition error_text (m : value) : completion string :=
  match ToString m with
  | Normal t => Normal ("Error: " ++ t)
  | Throw e => Throw e
  end.

(** Lines 86-88: the [catch] clause. *)
Definition catch_clause (error : value) : M unit :=
  m <- lift (Get error "message");;
  text <- lift (error_text m);;
  alert text.

(** The handler as created in a render whose state is [s]. *)
Definition handleAddCustomer (s : State) : M unit :=
  try_catch (try_block s) catch_clause.

(** One click on Create in state [s]: the log, what the handler's promise
    settles to, and the state once the scheduled updates are applied. *)
Definition submit_log (w : World) (s : State) : list Event :=
  fst (call (handleAddCustomer s) w).

Definition submit_result (w : World) (s : State) : Settled unit :=
  snd (call (handleAddCustomer s) w).

Definition submit_state (w : World) (s : State) : State :=
  replay s (submit_log w s).

(** *** Rendering (lines 101-156) *)

Record Row := mkRow
  { key : string;
    name_cell : list string;    (* the children of the first TableCell *)
    email_cell : list string }.

(** Lines 146-151. *)
Definition row (customer : Customer.t) : Row :=
  {| key := Customer.email customer;
     name_cell := [Customer.firstName customer; " "; Customer.lastName customer]%list;
     email_cell := [Customer.email customer]%list |}.

(** The text a cell shows: its text children one after the other. *)
Definition textContent (children : list string) : string :=
  String.concat "" children.

Inductive Element : Type :=
| Typography (color_error : bool) (children : list string)
| Table (count : nat) (rows : list Row).

(** Lines 101-156, at the declared types of the hook's fields. *)
Definition Home_main (data : option Customers) (error : option ApiError.t)
    (isLoading : bool) : list Element :=
  ((if isLoading then [Typography false ["Loading..."]] else []) ++
   (match error with
    | Some e => [Typography true ["Error: "; ApiError.message e]]
    | None => []
    end) ++
   (match data with
    | Some d => [Table (length d) (map row d)]
    | None => []
    end))%list.

(** What a row shows: the text of its two cells. *)
Definition shown (r : Row) : string * string :=
  (textContent (name_cell r), textContent (email_cell r)).

(** The rows of the tables among some elements. *)
Definition table_rows (elements : list Element) : list Row :=
  flat_map (fun e => match e with Table _ rows => rows | _ => [] end)%list elements.

(** *** The hook (lines 45-48) *)

(** Modelled from the spec: [useSWR] belongs to the SWR library, which is
    not among the sources.  Section 4.1 gives the contract of the first
    load: the hook starts in loading (no data, no error) and, when the
    promise of the fetcher settles, becomes ready with the data it resolved
    to or failed with the error it rejected with.  The three fields are the
    ones line 45 destructures; an absent field is [undefined].  What a
    later revalidation does to the three fields is not modelled. *)
Record SWRResponse := mkSWR
  { data : value;
    error : value;
    isLoading : bool }.

(** Modelled from the spec: the loading state of section 4.1 (no data yet,
    no error). *)
Definition swr_loading : SWRResponse := mkSWR VUndefined VUndefined true.

(** Modelled from the spec: the two ways out of loading of section 4.1,
    ready with the data the fetch completed with, failed with the error
    the fetch rejected with. *)
Definition swr_settle (r : Settled value) : SWRResponse :=
  match r with
  | Fulfilled d => mkSWR d VUndefined false
  | Rejected e => mkSWR VUndefined e false
  end.

(** The hook's fields once the first load has settled in world [w]. *)
Definition useSWR_loaded (w : World) : SWRResponse :=
  swr_settle (snd (call (fetcher customers_key) w)).

(** A field of the hook read at its declared type [T | undefined]. *)
Definition optional {A} (read : value -> option A) (v : value) : option (option A) :=
  match v with
  | VUndefined => Some None
  | _ => option_map Some (read v)
  end.

(** What [Home] shows for the hook's fields, when they inhabit the types
    declared at line 45. *)
Definition Home (r : SWRResponse) : option (list Element) :=
  match optional Customers_of_value (data r), optional ApiError_of_value (error r) with
  | Some d, Some e => Some (Home_main d e (isLoading r))
  | _, _ => None
  end.

(** *** Observations on a run of the handler *)

(** The value the [try] block threw, if it threw. *)
Definition failure (w : World) (s : State) : option value :=
  match snd (try_block s w []) with
  | Throw e => Some e
  | Normal _ => None
  end.

(** The texts shown by [alert], in order. *)
Definition alerts (log : list Event) : list string :=
  flat_map (fun e => match e with EvAlert t => [t] | _ => [] end)%list log.

Definition is_setter (e : Event) : bool :=
  match e with
  | EvSetFirstName _ | EvSetLastName _ | EvSetEmail _
  | EvSetBusinessName _ | EvSetOpen _ => true
  | _ => false
  end.

(** The events of a POST and of reporting: the call of [fetch], the
    settlement of its promise, the reading of the body, the alert. *)
Definition is_request_or_alert (e : Event) : bool :=
  match e with
  | EvFetch _ | EvResponse _ | EvJson _ | EvAlert _ => true
  | _ => false
  end.

(** How many times the dialog was told to close ([setOpen(false)]). *)
Definition close_signals (log : list Event) : nat :=
  length (filter (fun e => match e with EvSetOpen false => true | _ => false end) log).

(** How many times [mutate()] was called. *)
Definition mutate_calls (log : list Event) : nat :=
  length (filter (fun e => match e with EvMutate => true | _ => false end) log).

(** The run failed with message [m]: the [try] block threw an Error
    carrying [m], and the [catch] clause alerted it, once. *)
Definition fails_with_message (w : World) (s : State) (m : string) : Prop :=
  failure w s = Some (VError "Error" m)
  /\ alerts (submit_log w s) = ("Error: " ++ m) :: nil.

(** The members of the object literal that reach the request body. *)
Definition sent_members (s : State) : list (string * value) :=
  written_members (newCustomer_props s).

(** What the [catch] clause adds to the log for a caught value. *)
Definition catch_log (e : value) : list Event :=
  match Get e "message" with
  | Normal m =>
      match error_text m with
      | Normal t => [EvAlert t]
      | Throw _ => []
      end
  | Throw _ => []
  end%list.

(** The value thrown by lines 73-74 when the parsed body is [errorData]:
    the Error of line 74, or whatever reading [message] or building the
    Error threw. *)
Definition thrown_for (errorData : value) : value :=
  match Get errorData "message" with
  | Throw e => e
  | Normal m =>
      match new_Error (or_else m (VString fallback_message)) with
      | Throw e => e
      | Normal err => err
      end
  end.

(** The five updates of lines 81-85. *)
Definition reset_events : list Event :=
  [EvSetFirstName ""; EvSetLastName ""; EvSetEmail "";
   EvSetBusinessName ""; EvSetOpen false]%list.

End Page.

(* ================================================================== *)
(** ** Reading a request body back *)
(* ================================================================== *)

(** A reader for the text that [handleAddCustomer] sends, as the receiving
    end would read it.  It is not part of the page: it serves to state
    that the body carries the fields of the draft. *)
Module Reader.
Import JS.

Definition hex_value (c : ascii) : option nat :=
  let n := nat_of_ascii c in
  if ((48 <=? n) && (n <=? 57))%nat then Some (n - 48)         (* 0-9 *)
  else if ((97 <=? n) && (n <=? 102))%nat then Some (n - 87)   (* a-f *)
  else None.

(** The character a two-character escape stands for. *)
Definition unescape (e : ascii) : option ascii :=
  match e with
  | "b" => Some "008" | "t" => Some "009" | "n" => Some "010"
  | "f" => Some "012" | "r" => Some "013"
  | "034" => Some "034" | "092" => Some "092"
  | _ => None
  end%char.

Definition prepend (c : ascii) (r : option (string * string)) : option (string * string) :=
  match r with
  | Some (s, rest) => Some (String c s, rest)
  | None => None
  end.

(** The characters of a string literal up to its closing quote, and the
    text after it.  Of the [\u] escapes only those of the form [\u00XY]
    are read, which are the ones QuoteJSONString writes for bytes. *)
Fixpoint read_chars (t : string) : option (string * string) :=
  match t with
  | EmptyString => None
  | String c rest =>
      if Ascii.eqb c "034" then Some ("", rest)
      else if Ascii.eqb c "092" then
        match rest with
        | String "u" (String "0" (String "0" (String h (String l rest')))) =>
            match hex_value h, hex_value l with
            | Some x, Some y => prepend (ascii_of_nat (16 * x + y)) (read_chars rest')
            | _, _ => None
            end
        | String e rest' =>
            match unescape e with
            | Some d => prepend d (read_chars rest')
            | None => None
            end
        | EmptyString => None
        end
      else prepend c (read_chars rest)
  end.

(** A string literal at the head of [t]. *)
Definition read_string (t : string) : option (string * string) :=
  match t with
  | String c rest => if Ascii.eqb c "034" then read_chars rest else None
  | EmptyString => None
  end.

(** [t] without its prefix [p]. *)
Fixpoint expect (p t : string) : option string :=
  match p with
  | EmptyString => Some t
  | String c p' =>
      match t with
      | String d t' => if Ascii.eqb c d then expect p' t' else None
      | EmptyString => None
      end
  end.

(** The member [k] with a string value at the head of [t]. *)
Definition read_member (k t : string) : option (string * string) :=
  match expect (QuoteJSONString k ++ ":") t with
  | Some t' => read_string t'
  | None => None
  end.

(** The four fields of a customer object written in the order of the
    object literal of lines 58-63, the last one optional. *)
Definition read_customer (t : string)
  : option (string * string * string * option string) :=
  match expect "{" t with
  | None => None
  | Some t1 =>
  match read_member "firstName" t1 with
  | None => None
  | Some (f, t2) =>
  match expect "," t2 with
  | None => None
  | Some t3 =>
  match read_member "lastName" t3 with
  | None => None
  | Some (l, t4) =>
  match expect "," t4 with
  | None => None
  | Some t5 =>
  match read_member "email" t5 with
  | None => None
  | Some (e, t6) =>
      if String.eqb t6 "}" then Some (f, l, e, None)
      else
        match expect "," t6 with
        | None => None
        | Some t7 =>
        match read_member "businessName" t7 with
        | None => None
        | Some (b, t8) =>
            if String.eqb t8 "}" then Some (f, l, e, Some b) else None
        end end
  end end end end end end.

(** A text written with apostrophes where it has double quotes. *)
Fixpoint with_quotes (t : string) : string :=
  match t with
  | EmptyString => ""
  | String c rest =>
      String (if Ascii.eqb c "'" then "034"%char else c) (with_quotes rest)
  end.

(** The text of a customer object with these fields. *)
Definition customer_text (f l e : string) (b : option string) : string :=
  "{" ++ member_text "firstName" f ++ "," ++ member_text "lastName" l ++ ","
      ++ member_text "email" e
      ++ match b with
         | None => "}"
         | Some x => "," ++ member_text "businessName" x ++ "}"
         end.

End Reader.

(* ================================================================== *)
(** ** Sample inputs *)
(* ================================================================== *)

Module Examples.
Import JS Async Page.
Local Open Scope list_scope.

(** Drafts of an open dialog, without and with a business name. *)
Definition ann_draft : State := mkState true "Ann" "Lee" "ann@x.com" "".
Definition acme_draft : State := mkState true "Ann" "Lee" "ann@x.com" "Acme".

(** A world that answers every request with [r], with [c] in the cache. *)
Definition answering (r : Settled Response) (c : value) : World :=
  mkWorld (fun _ => r) c.

(** A world that answers a POST with [post] and any other request with
    [get], with [c] in the cache. *)
Definition serving (post get : Settled Response) (c : value) : World :=
  mkWorld (fun req => if String.eqb (method req) "POST" then post else get) c.

Definition ann_json : value :=
  VObject [("firstName", VString "Ann"); ("lastName", VString "Lee");
           ("email", VString "ann@x.com")].

Definition db_down : value :=
  VObject [("code", VString "internal_error"); ("message", VString "db down")].

Definition email_exists : value :=
  VObject [("message", VString "email already exists")].

Definition empty_message : value := VObject [("message", VString "")].

Definition syntax_error : value :=
  VError "SyntaxError" "Unexpected token '<'".

Definition created : Response := mkResponse 201 (Fulfilled ann_json).

(** The POST succeeds and the list is fetched again. *)
Definition world_created : World :=
  serving (Fulfilled created)
          (Fulfilled (mkResponse 200 (Fulfilled (VArray [ann_json]))))
          (VArray []).

(** The POST succeeds and the GET of the revalidation is answered 500. *)
Definition world_created_not_refreshed : World :=
  serving (Fulfilled created)
          (Fulfilled (mkResponse 500 (Fulfilled db_down)))
          (VArray []).

(** The POST is refused with a status and a JSON body. *)
Definition world_refused (st : Z) (b : value) : World :=
  answering (Fulfilled (mkResponse st (Fulfilled b))) (VArray []).

(** The server is down behind a proxy that answers with an HTML page. *)
Definition world_bad_gateway : World :=
  answering (Fulfilled (mkResponse 502 (Rejected syntax_error))) (VArray []).

(** A 200 answer whose body is not JSON. *)
Definition world_ok_not_json : World :=
  answering (Fulfilled (mkResponse 200 (Rejected syntax_error))) VUndefined.

(** The list endpoint answers 500 with a structured error. *)
Definition world_db_down : World :=
  answering (Fulfilled (mkResponse 500 (Fulfilled db_down))) VUndefined.

(** The list endpoint answers 200 with one customer. *)
Definition world_one_customer : World :=
  answering (Fulfilled (mkResponse 200 (Fulfilled (VArray [ann_json])))) VUndefined.

End Examples.

(* ================================================================== *)
(** ** Properties *)
(* ================================================================== *)

Import JS Async Page.
Local Open Scope list_scope.

(** *** The shape of a run of [handleAddCustomer] *)

Ltac run_handler :=
  unfold submit_log, failure, call, handleAddCustomer, try_catch, try_block,
         bind, fetch, json, lift, emit;
  cbv zeta.

(** The fetcher appends to the log it is given. *)
Lemma fetcher_from (u : string) (w : World) (log : list Event) :
  fetcher u w log = (log ++ fst (fetcher u w []), snd (fetcher u w [])).
Proof.
  unfold fetcher, bind, fetch, json. cbv zeta.
  destruct (network w (GET u)) as [r|e]; cbv [await ret throw]; [|reflexivity].
  destruct (json_body r) as [b|e]; cbv beta iota.
  - rewrite <- app_assoc. destruct (negb (ok r)); reflexivity.
  - rewrite <- app_assoc. reflexivity.
Qed.

(** [await mutate()] appends the events of a revalidation and goes on. *)
Lemma mutate_run (w : World) (log : list Event) :
  mutate w log = (log ++ revalidation_log w, Normal (revalidated w)).
Proof.
  unfold mutate, revalidation_log, revalidated, call.
  rewrite fetcher_from.
  destruct (fetcher customers_key w []) as [l [d|e]]; cbn [fst snd];
    rewrite <- !app_assoc; reflexivity.
Qed.

Section Runs.

Variable w : World.
Variable s : State.

Let req : Request := create_request s.

Lemma catch_clause_log (e : value) (log : list Event) :
  fst (catch_clause e w log) = log ++ catch_log e.
Proof.
  unfold catch_clause, catch_log, bind, lift, alert, emit.
  destruct (Get e "message") as [m|x]; simpl.
  - destruct (error_text m); simpl; auto using app_nil_r.
  - auto using app_nil_r.
Qed.

Lemma caught (e : value) (log : list Event) :
  fst (let (l, c) := catch_clause e w log in
       match c with
       | Normal a => (l, Fulfilled a)
       | Throw x => (l, Rejected x)
       end) = log ++ catch_log e.
Proof.
  pose proof (catch_clause_log e log) as L.
  destruct (catch_clause e w log) as [l [a|x]]; exact L.
Qed.

(** The request never reached a response. *)
Lemma submit_log_rejected (e : value) :
  network w req = Rejected e ->
  submit_log w s = [EvFetch req; EvResponse (Rejected e)] ++ catch_log e
  /\ failure w s = Some e.
Proof.
  intros H. run_handler. fold req. rewrite H. cbv [await throw ret].
  split; [apply caught | reflexivity].
Qed.

(** A response that is not ok, whose body is not valid JSON. *)
Lemma submit_log_unparsed (r : Response) (e : value) :
  network w req = Fulfilled r -> ok r = false -> json_body r = Rejected e ->
  submit_log w s =
    [EvFetch req; EvResponse (Fulfilled r); EvJson (Rejected e)] ++ catch_log e
  /\ failure w s = Some e.
Proof.
  intros H Hok Hj. run_handler. fold req. rewrite H. cbv [await throw ret].
  rewrite Hok, Hj. cbv [negb].
  split; [apply caught | reflexivity].
Qed.

(** A response that is not ok, with a JSON body. *)
Lemma submit_log_not_ok (r : Response) (b : value) :
  network w req = Fulfilled r -> ok r = false -> json_body r = Fulfilled b ->
  submit_log w s =
    [EvFetch req; EvResponse (Fulfilled r); EvJson (Fulfilled b)]
      ++ catch_log (thrown_for b)
  /\ failure w s = Some (thrown_for b).
Proof.
  intros H Hok Hj. run_handler. fold req. rewrite H. cbv [await throw ret].
  rewrite Hok, Hj. cbv [negb]. unfold thrown_for.
  destruct (Get b "message") as [m|x]; cbv beta iota.
  - destruct (new_Error (or_else m (VString fallback_message))) as [err|x];
      cbv beta iota; (split; [apply caught | reflexivity]).
  - split; [apply caught | reflexivity].
Qed.

(** An ok response: the revalidation, then the reset. *)
Lemma submit_log_success (r : Response) :
  network w req = Fulfilled r -> ok r = true ->
  submit_log w s =
    [EvFetch req; EvResponse (Fulfilled r)] ++ revalidation_log w ++ reset_events
  /\ failure w s = None
  /\ submit_result w s = Fulfilled tt.
Proof.
  intros H Hok. unfold submit_result. run_handler. fold req.
  rewrite H. cbv [await throw ret]. rewrite Hok. cbv [negb].
  rewrite mutate_run. cbv beta iota.
  rewrite <- !app_assoc. repeat split.
Qed.

End Runs.

(** The four ways a run can go, by what the platform answers to the POST. *)
Inductive run_case (w : World) (s : State) : Prop :=
| RunRejected (e : value) :
    network w (create_request s) = Rejected e -> run_case w s
| RunUnparsed (r : Response) (e : value) :
    network w (create_request s) = Fulfilled r -> ok r = false ->
    json_body r = Rejected e -> run_case w s
| RunNotOk (r : Response) (b : value) :
    network w (create_request s) = Fulfilled r -> ok r = false ->
    json_body r = Fulfilled b -> run_case w s
| RunSuccess (r : Response) :
    network w (create_request s) = Fulfilled r -> ok r = true -> run_case w s.

Lemma run_cases (w : World) (s : State) : run_case w s.
Proof.
  destruct (network w (create_request s)) as [r|e] eqn:H.
  - destruct (ok r) eqn:Hok.
    + eauto using RunSuccess.
    + destruct (json_body r) as [b|e] eqn:Hj;
        eauto using RunUnparsed, RunNotOk.
  - eauto using RunRejected.
Qed.

(** *** Logs and state *)

Lemma replay_app (s : State) (l1 l2 : list Event) :
  replay s (l1 ++ l2) = replay (replay s l1) l2.
Proof. apply fold_left_app. Qed.

Lemma replay_no_setter (l : list Event) :
  forall s, forallb (fun e => negb (is_setter e)) l = true -> replay s l = s.
Proof.
  induction l as [|e l IH]; intros s H; simpl in *; [reflexivity|].
  apply andb_true_iff in H as [He Hl].
  destruct e; simpl in *; try discriminate; apply IH; exact Hl.
Qed.

Lemma catch_log_no_setter (e : value) :
  forallb (fun e => negb (is_setter e)) (catch_log e) = true.
Proof.
  unfold catch_log. destruct (Get e "message") as [m|x]; [|reflexivity].
  destruct (error_text m); reflexivity.
Qed.


Lemma replay_reset (s : State) :
  replay s reset_events = mkState false "" "" "" "".
Proof. reflexivity. Qed.

Lemma forallb_app_true {A} (f : A -> bool) (l1 l2 : list A) :
  forallb f l1 = true -> forallb f l2 = true -> forallb f (l1 ++ l2) = true.
Proof. intros H1 H2. rewrite forallb_app, H1, H2. reflexivity. Qed.

(** The events of a call of the fetcher: the request, its settlement and,
    when there is a response, the reading of its body. *)
Lemma fetcher_log (w : World) (u : string) :
  fst (call (fetcher u) w) =
    match network w (GET u) with
    | Rejected e => [EvFetch (GET u); EvResponse (Rejected e)]
    | Fulfilled r =>
        [EvFetch (GET u); EvResponse (Fulfilled r); EvJson (json_body r)]
    end.
Proof.
  unfold call, fetcher, bind, fetch, json. cbv zeta.
  destruct (network w (GET u)) as [r|e]; cbv [await ret throw]; [|reflexivity].
  destruct (json_body r) as [b|e]; [|reflexivity].
  destruct (ok r); reflexivity.
Qed.

(** A revalidation updates no state of the component, and its only call
    of [mutate()] is its first event. *)
Lemma revalidation_log_shape (w : World) :
  exists rest,
    revalidation_log w = EvMutate :: rest
    /\ ~ In EvMutate rest
    /\ forallb (fun e => negb (is_setter e)) rest = true
    /\ (forall t, ~ In (EvAlert t) rest).
Proof.
  unfold revalidation_log. rewrite fetcher_log.
  eexists. split; [reflexivity|].
  destruct (network w (GET customers_key)) as [r|e]; simpl;
    repeat split; intuition discriminate.
Qed.

(** A run that does not end in the reset leaves the state alone. *)
Lemma failed_run_frame (w : World) (s : State) (e : value) :
  failure w s = Some e ->
  forallb (fun e => negb (is_setter e)) (submit_log w s) = true
  /\ submit_state w s = s.
Proof.
  intros Hf.
  assert (forallb (fun e => negb (is_setter e)) (submit_log w s) = true) as Hs.
  { destruct (run_cases w s) as [x H|r x H Hok Hj|r b H Hok Hj|r H Hok].
    - destruct (submit_log_rejected w s x H) as [-> _].
      apply forallb_app_true; [reflexivity | apply catch_log_no_setter].
    - destruct (submit_log_unparsed w s r x H Hok Hj) as [-> _].
      apply forallb_app_true; [reflexivity | apply catch_log_no_setter].
    - destruct (submit_log_not_ok w s r b H Hok Hj) as [-> _].
      apply forallb_app_true; [reflexivity | apply catch_log_no_setter].
    - destruct (submit_log_success w s r H Hok) as (_ & Hn & _).
      congruence. }
  split; [exact Hs | apply replay_no_setter, Hs].
Qed.

(** Every run starts with the create request and its settlement. *)
Lemma submit_log_head (w : World) (s : State) :
  exists rest,
    submit_log w s =
      EvFetch (create_request s) :: EvResponse (network w (create_request s)) :: rest.
Proof.
  destruct (run_cases w s) as [x H|r x H Hok Hj|r b H Hok Hj|r H Hok].
  - destruct (submit_log_rejected w s x H) as [-> _]. rewrite H. simpl. eauto.
  - destruct (submit_log_unparsed w s r x H Hok Hj) as [-> _]. rewrite H. simpl. eauto.
  - destruct (submit_log_not_ok w s r b H Hok Hj) as [-> _]. rewrite H. simpl. eauto.
  - destruct (submit_log_success w s r H Hok) as (-> & _). rewrite H. simpl. eauto.
Qed.

(** The state after a log that ends in the reset, whatever came before. *)
Lemma replay_then_reset (s : State) (l : list Event) :
  replay s (l ++ reset_events) = mkState false "" "" "" "".
Proof. rewrite replay_app. apply replay_reset. Qed.

Lemma close_signals_app (l1 l2 : list Event) :
  close_signals (l1 ++ l2) = close_signals l1 + close_signals l2.
Proof. unfold close_signals. rewrite filter_app, length_app. reflexivity. Qed.

Lemma close_signals_no_setter (l : list Event) :
  forallb (fun e => negb (is_setter e)) l = true -> close_signals l = 0.
Proof.
  unfold close_signals. induction l as [|x l IH]; intros H; [reflexivity|].
  simpl in H. apply andb_true_iff in H as [Hx Hl].
  destruct x; try discriminate; simpl; apply IH, Hl.
Qed.

Lemma alerts_app (l1 l2 : list Event) : alerts (l1 ++ l2) = alerts l1 ++ alerts l2.
Proof. unfold alerts. apply flat_map_app. Qed.

Lemma alerts_none (l : list Event) : (forall t, ~ In (EvAlert t) l) -> alerts l = [].
Proof.
  unfold alerts. induction l as [|x l IH]; intros H; [reflexivity|].
  destruct x; simpl; try (apply IH; intros t Hin; apply (H t); right; exact Hin).
  exfalso. apply (H text). left. reflexivity.
Qed.

(* ------------------------------------------------------------------ *)
(** *** After a successful submit *)

(** C2.  In every run in which the POST returns a success response, the
    run ends with the four fields empty and the dialog closed, and the
    close signal is given exactly once; nothing is alerted and the
    handler's promise fulfils.  This holds whatever the revalidation
    fetches, also when its GET fails. *)
Theorem submit_success_resets (w : World) (s : State) (r : Response) :
  network w (create_request s) = Fulfilled r ->
  ok r = true ->
  firstName (submit_state w s) = ""
  /\ lastName (submit_state w s) = ""
  /\ email (submit_state w s) = ""
  /\ businessName (submit_state w s) = ""
  /\ open (submit_state w s) = false
  /\ close_signals (submit_log w s) = 1
  /\ alerts (submit_log w s) = []
  /\ submit_result w s = Fulfilled tt.
Proof.
  intros H Hok.
  destruct (submit_log_success w s r H Hok) as (Hl & _ & Hr).
  destruct (revalidation_log_shape w) as (rest & Hv & _ & Hset & Hal).
  unfold submit_state. rewrite Hl, Hr, !app_assoc, replay_then_reset.
  rewrite close_signals_app, alerts_app, Hv.
  assert (close_signals ([EvFetch (create_request s); EvResponse (Fulfilled r)]
                           ++ EvMutate :: rest) = 0) as ->
      by (apply close_signals_no_setter; simpl; exact Hset).
  assert (alerts ([EvFetch (create_request s); EvResponse (Fulfilled r)]
                    ++ EvMutate :: rest) = []) as ->.
  { apply alerts_none. intros t [Hd|[Hd|[Hd|Hin]]]; try discriminate.
    exact (Hal t Hin). }
  repeat split.
Qed.

(** A POST answered 201 while the GET of the revalidation is answered 500:
    the form is reset and the dialog closed all the same. *)
Lemma submit_success_resets_witness :
  network Examples.world_created_not_refreshed (create_request Examples.acme_draft)
    = Fulfilled Examples.created
  /\ snd (call (fetcher customers_key) Examples.world_created_not_refreshed)
     = Rejected Examples.db_down
  /\ submit_state Examples.world_created_not_refreshed Examples.acme_draft
     = initial_state
  /\ close_signals (submit_log Examples.world_created_not_refreshed Examples.acme_draft)
     = 1.
Proof.
  split; [reflexivity|]. split; [reflexivity|].
  destruct (submit_success_resets Examples.world_created_not_refreshed
              Examples.acme_draft Examples.created eq_refl eq_refl)
    as (_ & _ & _ & _ & _ & Hc & _).
  split; [reflexivity | exact Hc].
Defined.

(* ------------------------------------------------------------------ *)
(** *** When the revalidation is started *)



Lemma mutate_calls_app (l1 l2 : list Event) :
  mutate_calls (l1 ++ l2) = mutate_calls l1 + mutate_calls l2.
Proof. unfold mutate_calls. rewrite filter_app, length_app. reflexivity. Qed.

Lemma mutate_calls_none (l : list Event) : ~ In EvMutate l -> mutate_calls l = 0.
Proof.
  unfold mutate_calls. induction l as [|e l IH]; intros H; [reflexivity|].
  simpl. destruct e; simpl;
    try (apply IH; intros Hin; apply H; right; exact Hin).
  exfalso. apply H. left. reflexivity.
Qed.


(* ------------------------------------------------------------------ *)
(** *** The fetcher *)

Lemma fetcher_run (w : World) (u : string) :
  call (fetcher u) w =
    match network w (GET u) with
    | Rejected e => ([EvFetch (GET u); EvResponse (Rejected e)], Rejected e)
    | Fulfilled r =>
        ([EvFetch (GET u); EvResponse (Fulfilled r); EvJson (json_body r)],
         match json_body r with
         | Rejected e => Rejected e
         | Fulfilled b => if ok r then Fulfilled b else Rejected b
         end)
    end.
Proof.
  unfold call, fetcher, bind, fetch, json. cbv zeta.
  destruct (network w (GET u)) as [r|e]; cbv [await ret throw]; [|reflexivity].
  destruct (json_body r) as [b|e]; [|reflexivity].
  destruct (ok r); reflexivity.
Qed.

(** C4.  When GET /api/customers is answered with a status outside
    200-299 and a body that is valid JSON, the promise of the fetcher
    rejects with the parsed body itself, and the hook ends the load in the
    failed state: no data, not loading, and the parsed body as its error.
    When that body is an ApiError the page shows its message. *)
Theorem fetcher_rejects_with_body (w : World) (r : Response) (b : value) :
  network w (GET customers_key) = Fulfilled r ->
  ok r = false ->
  json_body r = Fulfilled b ->
  snd (call (fetcher customers_key) w) = Rejected b
  /\ useSWR_loaded w = mkSWR VUndefined b false
  /\ (forall e, ApiError_of_value b = Some e ->
        Home (useSWR_loaded w) = Some [Typography true ["Error: "; ApiError.message e]%string]).
Proof.
  intros H Hok Hj.
  assert (snd (call (fetcher customers_key) w) = Rejected b) as Hf.
  { rewrite fetcher_run, H, Hj, Hok. reflexivity. }
  unfold useSWR_loaded. rewrite Hf. simpl.
  repeat split. intros e He. unfold Home, optional.
  cbn [data error isLoading].
  destruct b; try discriminate. rewrite He. reflexivity.
Qed.

(** The case the specification names: status 500 with the body
    [{code: internal_error, message: db down}]. *)
Lemma fetcher_rejects_with_body_witness :
  ok (mkResponse 500 (Fulfilled Examples.db_down)) = false
  /\ error (useSWR_loaded Examples.world_db_down) = Examples.db_down
  /\ Get (error (useSWR_loaded Examples.world_db_down)) "message"
       = Normal (VString "db down")
  /\ data (useSWR_loaded Examples.world_db_down) = VUndefined
  /\ isLoading (useSWR_loaded Examples.world_db_down) = false
  /\ Home (useSWR_loaded Examples.world_db_down)
       = Some [Typography true ["Error: "; "db down"]%string].
Proof.
  destruct (fetcher_rejects_with_body Examples.world_db_down
              (mkResponse 500 (Fulfilled Examples.db_down)) Examples.db_down
              eq_refl eq_refl eq_refl) as (_ & Hs & Hv).
  rewrite (Hv (ApiError.mk "internal_error" "db down") eq_refl), Hs.
  repeat split.
Defined.

(** C9.  For every response to the GET, the fetcher calls [json()] on it
    whatever the status, and only then looks at [ok]: its promise fulfils
    with a value exactly when the status is in 200-299 and the body parsed
    to that value, and a body that does not parse makes it reject with the
    parse error, also under a 2xx status. *)
Theorem fetcher_parses_before_status (w : World) (u : string) (r : Response) :
  network w (GET u) = Fulfilled r ->
  fst (call (fetcher u) w)
    = [EvFetch (GET u); EvResponse (Fulfilled r); EvJson (json_body r)]
  /\ (forall b,
        snd (call (fetcher u) w) = Fulfilled b <->
        ok r = true /\ json_body r = Fulfilled b)
  /\ (forall e, json_body r = Rejected e -> snd (call (fetcher u) w) = Rejected e).
Proof.
  intros H. rewrite fetcher_run, H. simpl. repeat split.
  - destruct (json_body r) as [b'|e]; [|discriminate].
    destruct (ok r); [reflexivity | discriminate].
  - destruct (json_body r) as [b'|e]; [|discriminate].
    destruct (ok r); congruence.
  - intros [Hok Hj]. rewrite Hj, Hok. reflexivity.
  - intros e Hj. rewrite Hj. reflexivity.
Qed.

Lemma fetcher_parses_before_status_witness :
  ok (mkResponse 200 (Rejected Examples.syntax_error)) = true
  /\ call (fetcher customers_key) Examples.world_ok_not_json
     = ([EvFetch (GET customers_key);
         EvResponse (Fulfilled (mkResponse 200 (Rejected Examples.syntax_error)));
         EvJson (Rejected Examples.syntax_error)],
        Rejected Examples.syntax_error).
Proof.
  split; [reflexivity|].
  destruct (fetcher_parses_before_status Examples.world_ok_not_json customers_key
              (mkResponse 200 (Rejected Examples.syntax_error)) eq_refl)
    as (Hl & _ & Hr).
  specialize (Hr Examples.syntax_error eq_refl).
  destruct (call (fetcher customers_key) Examples.world_ok_not_json) as [l o].
  simpl in Hl, Hr. rewrite Hl, Hr. reflexivity.
Defined.

(* ------------------------------------------------------------------ *)
(** *** The table *)

Lemma shown_row (c : Customer.t) :
  shown (row c)
    = ((Customer.firstName c ++ " " ++ Customer.lastName c)%string, Customer.email c).
Proof. reflexivity. Qed.

(** C8.  Whenever data is loaded, the page shows one table whose rows are
    the customers in the order of the collection; each row shows the
    first name, a space and the last name in its first cell and the email
    in its second, and is keyed by the email.  For the answer
    [[{firstName: Ann, lastName: Lee, email: ann@x.com}]] the page shows
    exactly one row, Ann Lee with ann@x.com. *)
Theorem table_shows_customers
    (data : Customers) (error : option ApiError.t) (isLoading : bool) :
  table_rows (Home_main (Some data) error isLoading) = map row data
  /\ length (table_rows (Home_main (Some data) error isLoading)) = length data
  /\ map shown (table_rows (Home_main (Some data) error isLoading))
       = map (fun c => ((Customer.firstName c ++ " " ++ Customer.lastName c)%string,
                        Customer.email c)) data
  /\ map key (table_rows (Home_main (Some data) error isLoading))
       = map Customer.email data
  /\ (exists rows,
        Home (useSWR_loaded Examples.world_one_customer) = Some [Table 1 rows]
        /\ map shown rows = [("Ann Lee"%string, "ann@x.com"%string)]).
Proof.
  assert (table_rows (Home_main (Some data) error isLoading) = map row data) as E.
  { unfold Home_main, table_rows.
    destruct isLoading, error; simpl; apply app_nil_r. }
  rewrite E. repeat split.
  - apply length_map.
  - rewrite map_map. apply map_ext. intros c. apply shown_row.
  - rewrite map_map. reflexivity.
  - eexists. split; reflexivity.
Qed.

(* ------------------------------------------------------------------ *)
(** *** A POST that is refused *)

Lemma catch_log_Error (m : string) :
  catch_log (VError "Error" m) = [EvAlert ("Error: " ++ m)].
Proof. reflexivity. Qed.

(** A refused POST whose parsed body makes line 74 build an Error with
    message [t]. *)
Lemma refused_fails_with (w : World) (s : State) (r : Response) (b : value) (t : string) :
  network w (create_request s) = Fulfilled r ->
  ok r = false ->
  json_body r = Fulfilled b ->
  thrown_for b = VError "Error" t ->
  fails_with_message w s t
  /\ submit_log w s =
       [EvFetch (create_request s); EvResponse (Fulfilled r); EvJson (Fulfilled b);
        EvAlert ("Error: " ++ t)].
Proof.
  intros H Hok Hj Ht.
  destruct (submit_log_not_ok w s r b H Hok Hj) as [Hl Hf].
  rewrite Ht in Hl, Hf. rewrite catch_log_Error in Hl.
  unfold fails_with_message. rewrite Hl, Hf. repeat split.
Qed.

Lemma thrown_for_truthy (b m : value) (t : string) :
  Get b "message" = Normal m -> ToBoolean m = true -> ToString m = Normal t ->
  thrown_for b = VError "Error" t.
Proof.
  intros Hg Hb Ht. unfold thrown_for, or_else, new_Error.
  rewrite Hg, Hb, Ht. reflexivity.
Qed.

Lemma thrown_for_falsy (b m : value) :
  Get b "message" = Normal m -> ToBoolean m = false ->
  thrown_for b = VError "Error" fallback_message.
Proof.
  intros Hg Hb. unfold thrown_for, or_else, new_Error.
  rewrite Hg, Hb. reflexivity.
Qed.

Lemma nonempty_truthy (t : string) : t <> ""%string -> ToBoolean (VString t) = true.
Proof. intros H. destruct t; [contradiction | reflexivity]. Qed.

(** C5, as the code has it.  When the POST is answered with a status
    outside 200-299 and a JSON object whose [message] is a non-empty
    string, the run fails with exactly that string: the Error thrown
    carries it and the alert shows it.  The draft and the dialog are as
    they were at submission. *)
Theorem refused_post_reports_message
    (w : World) (s : State) (r : Response) (props : list (string * value)) (m : string) :
  network w (create_request s) = Fulfilled r ->
  ok r = false ->
  json_body r = Fulfilled (VObject props) ->
  own_property props "message" = Some (VString m) ->
  m <> ""%string ->
  fails_with_message w s m
  /\ submit_state w s = s
  /\ submit_log w s =
       [EvFetch (create_request s); EvResponse (Fulfilled r);
        EvJson (Fulfilled (VObject props)); EvAlert ("Error: " ++ m)].
Proof.
  intros H Hok Hj Hp Hm.
  assert (thrown_for (VObject props) = VError "Error" m) as Ht.
  { apply thrown_for_truthy with (m := VString m).
    - simpl. rewrite Hp. reflexivity.
    - apply nonempty_truthy, Hm.
    - reflexivity. }
  destruct (refused_fails_with w s r _ m H Hok Hj Ht) as [Hf Hl].
  repeat split; try apply Hf; try exact Hl.
  destruct Hf as [Hf _]. apply (failed_run_frame w s _ Hf).
Qed.

(** The case the specification names: status 400 with the body
    [{message: email already exists}]. *)
Lemma refused_post_reports_message_witness :
  fails_with_message (Examples.world_refused 400 Examples.email_exists)
    Examples.acme_draft "email already exists"
  /\ submit_state (Examples.world_refused 400 Examples.email_exists) Examples.acme_draft
     = Examples.acme_draft.
Proof.
  destruct (refused_post_reports_message
              (Examples.world_refused 400 Examples.email_exists) Examples.acme_draft
              (mkResponse 400 (Fulfilled Examples.email_exists))
              [("message"%string, VString "email already exists")]
              "email already exists" eq_refl eq_refl eq_refl eq_refl)
    as (Hf & Hs & _).
  - discriminate.
  - split; assumption.
Defined.

(** C5 fails as stated: the body [{message: (empty string)}] contains a
    message field, and the run fails with the fallback text instead of
    that field's string. *)
Lemma refused_post_empty_message :
  own_property [("message"%string, VString "")] "message" = Some (VString "")
  /\ ok (mkResponse 400 (Fulfilled Examples.empty_message)) = false
  /\ ~ fails_with_message (Examples.world_refused 400 Examples.empty_message)
         Examples.acme_draft ""
  /\ fails_with_message (Examples.world_refused 400 Examples.empty_message)
       Examples.acme_draft "Failed to add customer".
Proof.
  repeat split.
  intros [Hf _]. discriminate Hf.
Qed.

(* ------------------------------------------------------------------ *)
(** *** What a failed POST leaves alone *)

Lemma catch_log_alerts_only (e : value) :
  forallb is_request_or_alert (catch_log e) = true.
Proof.
  unfold catch_log. destruct (Get e "message") as [m|x]; [|reflexivity].
  destruct (error_text m); reflexivity.
Qed.

Lemma failed_post_log (w : World) (s : State) :
  (exists e, network w (create_request s) = Rejected e)
  \/ (exists r, network w (create_request s) = Fulfilled r /\ ok r = false) ->
  forallb is_request_or_alert (submit_log w s) = true.
Proof.
  intros [[e H]|(r & H & Hok)].
  - destruct (submit_log_rejected w s e H) as [-> _].
    apply forallb_app_true; [reflexivity | apply catch_log_alerts_only].
  - destruct (json_body r) as [b|x] eqn:Hj.
    + destruct (submit_log_not_ok w s r b H Hok Hj) as [-> _].
      apply forallb_app_true; [reflexivity | apply catch_log_alerts_only].
    + destruct (submit_log_unparsed w s r x H Hok Hj) as [-> _].
      apply forallb_app_true; [reflexivity | apply catch_log_alerts_only].
Qed.

(** C10.  When the POST fails, by a rejected request or by a response
    whose status is outside 200-299, the run calls no state setter, so the
    state after it is the state before it (an open dialog stays open), and
    it never calls [mutate()], which is the handler's only way to the
    cached collection. *)
Theorem failed_post_changes_nothing (w : World) (s : State) :
  (exists e, network w (create_request s) = Rejected e)
  \/ (exists r, network w (create_request s) = Fulfilled r /\ ok r = false) ->
  submit_state w s = s
  /\ open (submit_state w s) = open s
  /\ forallb is_request_or_alert (submit_log w s) = true
  /\ forallb (fun e => negb (is_setter e)) (submit_log w s) = true
  /\ close_signals (submit_log w s) = 0
  /\ ~ In EvMutate (submit_log w s)
  /\ mutate_calls (submit_log w s) = 0
  /\ (forall m, ~ In (EvMutateSettled m) (submit_log w s)).
Proof.
  intros Hfail. pose proof (failed_post_log w s Hfail) as Hq.
  assert (forall e, In e (submit_log w s) -> is_request_or_alert e = true) as Hall
      by (apply forallb_forall; exact Hq).
  assert (forallb (fun e => negb (is_setter e)) (submit_log w s) = true) as Hset.
  { apply forallb_forall. intros e Hin. apply Hall in Hin. destruct e; auto; discriminate. }
  assert (~ In EvMutate (submit_log w s)) as Hnm
      by (intros Hin; apply Hall in Hin; discriminate).
  assert (submit_state w s = s) as Hst by (apply replay_no_setter, Hset).
  refine (conj Hst (conj _ (conj Hq (conj Hset (conj _ (conj Hnm (conj _ _))))))).
  - rewrite Hst. reflexivity.
  - unfold close_signals. clear Hq Hset Hnm Hst.
    induction (submit_log w s) as [|x l IH]; [reflexivity|].
    assert (is_request_or_alert x = true) as Hx by (apply Hall; left; reflexivity).
    destruct x; try discriminate; simpl; apply IH; intros e Hin; apply Hall; right;
      exact Hin.
  - apply mutate_calls_none, Hnm.
  - intros m Hin. apply Hall in Hin. discriminate.
Qed.

(** A 502 whose body is an HTML page. *)
Lemma failed_post_changes_nothing_witness :
  submit_state Examples.world_bad_gateway Examples.acme_draft = Examples.acme_draft
  /\ open (submit_state Examples.world_bad_gateway Examples.acme_draft) = true
  /\ mutate_calls (submit_log Examples.world_bad_gateway Examples.acme_draft) = 0.
Proof.
  destruct (failed_post_changes_nothing Examples.world_bad_gateway Examples.acme_draft)
    as (Hs & Ho & _ & _ & _ & _ & Hm & _).
  - right. exists (mkResponse 502 (Rejected Examples.syntax_error)).
    split; reflexivity.
  - repeat split; assumption.
Defined.

(* ------------------------------------------------------------------ *)
(** *** The body read back *)

Import Reader.

Lemma append_assoc (a b c : string) : ((a ++ b) ++ c = a ++ (b ++ c))%string.
Proof. induction a as [|x a IH]; simpl; [reflexivity | rewrite IH; reflexivity]. Qed.

Lemma expect_app (p t : string) : expect p (p ++ t) = Some t.
Proof.
  induction p as [|c p IH]; simpl; [reflexivity|].
  rewrite Ascii.eqb_refl. exact IH.
Qed.

Lemma read_chars_quote_char (c : ascii) (t : string) :
  read_chars (quote_char c ++ t) = prepend c (read_chars t).
Proof.
  destruct c as [b0 b1 b2 b3 b4 b5 b6 b7].
  destruct b0, b1, b2, b3, b4, b5, b6, b7; reflexivity.
Qed.

Lemma read_chars_quote_chars (s rest : string) :
  read_chars (quote_chars s ++ String "034" rest) = Some (s, rest).
Proof.
  induction s as [|c s IH]; cbn [quote_chars]; [reflexivity|].
  rewrite append_assoc, read_chars_quote_char, IH. reflexivity.
Qed.

(** Reading a quoted string gives the string back, whatever follows. *)
Lemma read_string_quote (s rest : string) :
  read_string (QuoteJSONString s ++ rest) = Some (s, rest).
Proof.
  unfold QuoteJSONString. rewrite !append_assoc.
  change (read_chars (quote_chars s ++ String "034" rest) = Some (s, rest)).
  apply read_chars_quote_chars.
Qed.

Lemma read_member_text (k v rest : string) :
  read_member k (member_text k v ++ rest) = Some (v, rest).
Proof.
  unfold read_member, member_text.
  rewrite <- append_assoc. rewrite append_assoc with (c := rest).
  rewrite expect_app. apply read_string_quote.
Qed.

Lemma read_customer_text (f l e : string) (b : option string) :
  read_customer (customer_text f l e b) = Some (f, l, e, b).
Proof.
  unfold read_customer, customer_text.
  rewrite expect_app. cbv beta iota.
  rewrite read_member_text. cbv beta iota.
  rewrite expect_app. cbv beta iota.
  rewrite read_member_text. cbv beta iota.
  rewrite expect_app. cbv beta iota.
  rewrite read_member_text. cbv beta iota.
  destruct b as [x|].
  - change (String.eqb ("," ++ member_text "businessName" x ++ "}") "}") with false.
    cbv beta iota. rewrite expect_app. cbv beta iota.
    rewrite read_member_text. reflexivity.
  - reflexivity.
Qed.

(** The draft's business name as the body carries it. *)
Definition sent_businessName (s : State) : option string :=
  if String.eqb (businessName s) "" then None else Some (businessName s).

Lemma create_request_text (s : State) :
  body (create_request s)
    = Some (customer_text (firstName s) (lastName s) (email s) (sent_businessName s)).
Proof.
  unfold create_request, newCustomer, newCustomer_props, JSON_stringify,
         sent_businessName, customer_text, member_text.
  destruct (businessName s) as [|c bn];
    cbn [body SerializeJSONProperty flat_map snd fst app ToBoolean String.eqb
         negb join_with];
    rewrite !append_assoc; reflexivity.
Qed.

(* ------------------------------------------------------------------ *)
(** *** The request body *)

(** C1.  For every form draft, the JSON body of the create request leaves
    the [businessName] key out when the field is the empty string and
    carries it with the field's value when it is not; [firstName],
    [lastName] and [email] are always written, with the stored values.
    This is stated three ways: on the members the serializer writes; on
    the text of the body, which read back member by member gives the
    three fields as stored and the business name, absent when empty; and
    on the text itself for two drafts.  Every run sends this request
    first. *)
Theorem create_body_businessName (s : State) :
  sent_members s =
    [("firstName", VString (firstName s));
     ("lastName", VString (lastName s));
     ("email", VString (email s))]
    ++ (if String.eqb (businessName s) "" then []
        else [("businessName", VString (businessName s))])
  /\ own_property (sent_members s) "businessName" =
       (if String.eqb (businessName s) "" then None
        else Some (VString (businessName s)))
  /\ own_property (sent_members s) "firstName" = Some (VString (firstName s))
  /\ own_property (sent_members s) "lastName" = Some (VString (lastName s))
  /\ own_property (sent_members s) "email" = Some (VString (email s))
  /\ body (create_request s) =
       Some ("{" ++ join_with ","
                      ([member_text "firstName" (firstName s);
                        member_text "lastName" (lastName s);
                        member_text "email" (email s)]
                       ++ (if String.eqb (businessName s) "" then []
                           else [member_text "businessName" (businessName s)]))
                 ++ "}")%string
  /\ (forall w, exists rest, submit_log w s = EvFetch (create_request s) :: rest)
  /\ (exists t,
        body (create_request s) = Some t
        /\ read_customer t =
             Some (firstName s, lastName s, email s,
                   if String.eqb (businessName s) "" then None
                   else Some (businessName s)))
  /\ body (create_request Examples.ann_draft) =
       Some (with_quotes "{'firstName':'Ann','lastName':'Lee','email':'ann@x.com'}")
  /\ body (create_request Examples.acme_draft) =
       Some (with_quotes
               "{'firstName':'Ann','lastName':'Lee','email':'ann@x.com','businessName':'Acme'}").
Proof.
  assert (forall w, exists rest, submit_log w s = EvFetch (create_request s) :: rest) as Hrun.
  { intros w. destruct (submit_log_head w s) as [rest ->]. eauto. }
  assert (exists t,
             body (create_request s) = Some t
             /\ read_customer t =
                  Some (firstName s, lastName s, email s,
                        if String.eqb (businessName s) "" then None
                        else Some (businessName s))) as Hread.
  { eexists. split; [apply create_request_text | apply read_customer_text]. }
  refine (conj _ (conj _ (conj _ (conj _ (conj _ (conj _ (conj Hrun (conj Hread
            (conj eq_refl eq_refl)))))))));
    unfold sent_members, written_members, newCustomer_props, create_request,
           newCustomer, newCustomer_props, JSON_stringify;
    destruct (businessName s) as [|c bn]; reflexivity.
Qed.

(** The body of the create request, read back, gives the first name, last
    name and email of the draft as stored, and its business name when it is
    not empty; an empty business name reads back as an absent member. *)
Theorem body_carries_draft (s : State) :
  exists t,
    body (create_request s) = Some t
    /\ read_customer t
       = Some (firstName s, lastName s, email s, sent_businessName s).
Proof.
  eexists. split; [apply create_request_text | apply read_customer_text].
Qed.

Lemma sent_businessName_inj (s1 s2 : State) :
  sent_businessName s1 = sent_businessName s2 -> businessName s1 = businessName s2.
Proof.
  unfold sent_businessName.
  destruct (String.eqb_spec (businessName s1) ""), (String.eqb_spec (businessName s2) "");
    congruence.
Qed.

(** Two drafts whose create requests have the same body agree on all four
    fields: nothing of the draft is lost or merged on the way to the
    body. *)
Theorem body_determines_draft (s1 s2 : State) :
  body (create_request s1) = body (create_request s2) ->
  firstName s1 = firstName s2
  /\ lastName s1 = lastName s2
  /\ email s1 = email s2
  /\ businessName s1 = businessName s2.
Proof.
  intros E. rewrite !create_request_text in E.
  apply (f_equal (fun o => match o with
                           | Some t => read_customer t
                           | None => None
                           end)) in E.
  cbv beta iota in E. rewrite !read_customer_text in E.
  injection E as Ef El Ee Eb.
  auto using sent_businessName_inj.
Qed.

Lemma body_determines_draft_witness :
  firstName Examples.acme_draft = "Ann"%string
  /\ businessName (mkState false "Ann" "Lee" "ann@x.com" "Acme")
     = businessName Examples.acme_draft.
Proof.
  destruct (body_determines_draft (mkState false "Ann" "Lee" "ann@x.com" "Acme")
              Examples.acme_draft eq_refl) as (_ & _ & _ & Hb).
  split; [reflexivity | exact Hb].
Defined.

(* ================================================================== *)
(** ** More of the handler: requests, alerts and the promise *)
(* ================================================================== *)

(** The requests made in a log, in order. *)
Definition requests (log : list Event) : list Request :=
  flat_map (fun e => match e with EvFetch req => [req] | _ => [] end) log.

(** The bodies read with [json()] in a log, in order. *)
Definition json_reads (log : list Event) : list (Settled value) :=
  flat_map (fun e => match e with EvJson r => [r] | _ => [] end) log.

(** The state updates of a log, in order. *)
Definition updates (log : list Event) : list Event := filter is_setter log.

(** What the handler's promise settles to once the [catch] clause has run
    for a caught value: the clause throws when [message] cannot be read or
    cannot be converted to a string. *)
Definition catch_result (e : value) : Settled unit :=
  match Get e "message" with
  | Throw x => Rejected x
  | Normal m =>
      match error_text m with
      | Throw x => Rejected x
      | Normal _ => Fulfilled tt
      end
  end.

Lemma catch_clause_run (e : value) (w : World) (log : list Event) :
  catch_clause e w log
    = (log ++ catch_log e,
       match catch_result e with
       | Fulfilled a => Normal a
       | Rejected x => Throw x
       end).
Proof.
  unfold catch_clause, catch_log, catch_result, bind, lift, alert, emit.
  destruct (Get e "message") as [m|x]; [|rewrite app_nil_r; reflexivity].
  destruct (error_text m) as [t|x]; [reflexivity | rewrite app_nil_r; reflexivity].
Qed.

(** The promise of the handler, by what the [try] block did. *)
Lemma submit_result_by_failure (w : World) (s : State) :
  submit_result w s =
    match failure w s with
    | None => Fulfilled tt
    | Some e => catch_result e
    end.
Proof.
  unfold submit_result, failure, call, handleAddCustomer, try_catch.
  destruct (try_block s w []) as [l [[]|e]]; [reflexivity|].
  rewrite catch_clause_run. cbn [snd]. destruct (catch_result e) as [[]|x]; reflexivity.
Qed.

Lemma requests_app (l1 l2 : list Event) : requests (l1 ++ l2) = requests l1 ++ requests l2.
Proof. apply flat_map_app. Qed.

Lemma json_reads_app (l1 l2 : list Event) :
  json_reads (l1 ++ l2) = json_reads l1 ++ json_reads l2.
Proof. apply flat_map_app. Qed.

Lemma updates_app (l1 l2 : list Event) : updates (l1 ++ l2) = updates l1 ++ updates l2.
Proof. apply filter_app. Qed.

Lemma catch_log_quiet (e : value) :
  requests (catch_log e) = [] /\ json_reads (catch_log e) = []
  /\ updates (catch_log e) = [].
Proof.
  unfold catch_log. destruct (Get e "message") as [m|x]; [|repeat split].
  destruct (error_text m); repeat split.
Qed.

(** The log of a run that failed, in one form: the events of the POST,
    without alert or update, then what the [catch] clause adds. *)
Lemma failed_run_log (w : World) (s : State) (e : value) :
  failure w s = Some e ->
  exists pre,
    submit_log w s = pre ++ catch_log e
    /\ alerts pre = [] /\ updates pre = []
    /\ requests pre = [create_request s]
    /\ json_reads pre =
         match network w (create_request s) with
         | Fulfilled r => if ok r then [] else [json_body r]
         | Rejected _ => []
         end.
Proof.
  intros Hf.
  destruct (run_cases w s) as [x H|r x H Hok Hj|r b H Hok Hj|r H Hok].
  - destruct (submit_log_rejected w s x H) as [Hl Hf']. rewrite Hf' in Hf.
    injection Hf as <-. rewrite H. eexists. split; [exact Hl|]. repeat split.
  - destruct (submit_log_unparsed w s r x H Hok Hj) as [Hl Hf']. rewrite Hf' in Hf.
    injection Hf as <-. rewrite H, Hok, Hj. eexists. split; [exact Hl|]. repeat split.
  - destruct (submit_log_not_ok w s r b H Hok Hj) as [Hl Hf']. rewrite Hf' in Hf.
    injection Hf as <-. rewrite H, Hok, Hj. eexists. split; [exact Hl|]. repeat split.
  - destruct (submit_log_success w s r H Hok) as (_ & Hn & _). congruence.
Qed.

(** The log of a run that did not fail. *)
Lemma successful_run_log (w : World) (s : State) :
  failure w s = None ->
  exists r,
    network w (create_request s) = Fulfilled r /\ ok r = true
    /\ submit_log w s =
         [EvFetch (create_request s); EvResponse (Fulfilled r)]
           ++ revalidation_log w ++ reset_events.
Proof.
  intros Hf.
  destruct (run_cases w s) as [x H|r x H Hok Hj|r b H Hok Hj|r H Hok].
  - destruct (submit_log_rejected w s x H) as [_ Hf']. congruence.
  - destruct (submit_log_unparsed w s r x H Hok Hj) as [_ Hf']. congruence.
  - destruct (submit_log_not_ok w s r b H Hok Hj) as [_ Hf']. congruence.
  - destruct (submit_log_success w s r H Hok) as (Hl & _). eauto.
Qed.

(** When [fetch] itself rejects (the request never got an answer), the
    fetcher rejects with the same reason; it made its one request, a GET of
    the URL without headers or body, and read no body. *)
Theorem fetcher_network_failure (w : World) (u : string) (e : value) :
  network w (GET u) = Rejected e ->
  snd (call (fetcher u) w) = Rejected e
  /\ fst (call (fetcher u) w) = [EvFetch (GET u); EvResponse (Rejected e)]
  /\ requests (fst (call (fetcher u) w)) = [mkRequest u "GET" [] None]
  /\ json_reads (fst (call (fetcher u) w)) = [].
Proof.
  intros H. rewrite fetcher_run, H. repeat split.
Qed.

Lemma fetcher_network_failure_witness :
  call (fetcher customers_key)
       (Examples.answering (Rejected (TypeError "Failed to fetch")) VUndefined)
  = ([EvFetch (GET customers_key); EvResponse (Rejected (TypeError "Failed to fetch"))],
     Rejected (TypeError "Failed to fetch")).
Proof.
  destruct (fetcher_network_failure
              (Examples.answering (Rejected (TypeError "Failed to fetch")) VUndefined)
              customers_key (TypeError "Failed to fetch") eq_refl) as (Hr & Hl & _).
  destruct (call (fetcher customers_key) _) as [l r]. simpl in Hr, Hl.
  rewrite Hr, Hl. reflexivity.
Defined.

Lemma revalidation_requests (w : World) :
  requests (revalidation_log w) = [GET customers_key]
  /\ json_reads (revalidation_log w) =
       match network w (GET customers_key) with
       | Fulfilled g => [json_body g]
       | Rejected _ => []
       end
  /\ updates (revalidation_log w) = []
  /\ alerts (revalidation_log w) = [].
Proof.
  unfold revalidation_log. rewrite fetcher_log.
  destruct (network w (GET customers_key)) as [g|e]; repeat split.
Qed.

(** The requests of a run.  Every run starts with the POST built from the
    draft.  When the POST is answered with a success response the run
    makes one more request, the GET of the list by the fetcher during the
    revalidation, and reads the body of the GET's response if there is
    one, never the body of the POST's response.  When the POST is answered
    with another status the run makes no other request and reads the body
    of that response, once.  When the POST gets no answer nothing else is
    requested or read. *)
Theorem requests_of_a_run (w : World) (s : State) :
  requests (submit_log w s) =
    create_request s ::
    match network w (create_request s) with
    | Fulfilled r => if ok r then [GET customers_key] else []
    | Rejected _ => []
    end
  /\ json_reads (submit_log w s) =
       match network w (create_request s) with
       | Fulfilled r =>
           if ok r then
             match network w (GET customers_key) with
             | Fulfilled g => [json_body g]
             | Rejected _ => []
             end
           else [json_body r]
       | Rejected _ => []
       end.
Proof.
  destruct (failure w s) as [e|] eqn:Hf.
  - destruct (failed_run_log w s e Hf) as (pre & Hl & _ & _ & Hr & Hj).
    destruct (catch_log_quiet e) as (Cr & Cj & _).
    rewrite Hl, requests_app, json_reads_app, Hr, Hj, Cr, Cj, !app_nil_r.
    destruct (network w (create_request s)) as [r|x] eqn:H.
    + destruct (ok r) eqn:Hok; [|split; reflexivity].
      destruct (submit_log_success w s r H Hok) as (_ & Hn & _). congruence.
    + split; reflexivity.
  - destruct (successful_run_log w s Hf) as (r & H & Hok & Hl).
    destruct (revalidation_requests w) as (Rr & Rj & _).
    rewrite Hl, H, Hok, !requests_app, !json_reads_app, Rr, Rj.
    split; simpl; rewrite ?app_nil_r; reflexivity.
Qed.

Lemma alerts_catch_log (e : value) :
  length (alerts (catch_log e)) <= 1
  /\ Forall (fun t => String.prefix "Error: " t = true) (alerts (catch_log e)).
Proof.
  unfold catch_log. destruct (Get e "message") as [m|x]; [|split; [simpl; lia | constructor]].
  unfold error_text. destruct (ToString m) as [t|x]; simpl.
  - split; [lia|]. constructor; [|constructor].
    destruct t; reflexivity.
  - split; [lia | constructor].
Qed.

(** The reset of lines 81-85 is all or nothing, and a run never both
    resets and alerts.  Either the [try] block went through, the state
    updates of the run are the five of the reset in order and nothing is
    alerted; or it threw, the run updates no state at all and alerts at
    most once, with a text that starts with [Error: ]. *)
Theorem reset_all_or_nothing (w : World) (s : State) :
  (failure w s = None
   /\ updates (submit_log w s) = reset_events
   /\ alerts (submit_log w s) = [])
  \/ (exists e,
        failure w s = Some e
        /\ updates (submit_log w s) = []
        /\ length (alerts (submit_log w s)) <= 1
        /\ Forall (fun t => String.prefix "Error: " t = true) (alerts (submit_log w s))).
Proof.
  destruct (failure w s) as [e|] eqn:Hf.
  - right. exists e. destruct (failed_run_log w s e Hf) as (pre & Hl & Ha & Hu & _).
    destruct (catch_log_quiet e) as (_ & _ & Cu).
    destruct (alerts_catch_log e) as [Cl Cf].
    rewrite Hl, updates_app, alerts_app, Ha, Hu, Cu. simpl. auto.
  - left. destruct (successful_run_log w s Hf) as (r & _ & _ & Hl).
    destruct (revalidation_requests w) as (_ & _ & Ru & Ra).
    rewrite Hl, !updates_app, !alerts_app, Ru, Ra. repeat split.
Qed.

(** Induction on values, with the elements of an array and the members
    of an object as smaller values. *)
Lemma value_nested_ind (P : value -> Prop) :
  P VUndefined -> P VNull -> (forall b, P (VBool b)) -> (forall n, P (VNumber n)) ->
  (forall t, P (VString t)) ->
  (forall elems, Forall P elems -> P (VArray elems)) ->
  (forall props, Forall (fun kv => P (snd kv)) props -> P (VObject props)) ->
  (forall name message, P (VError name message)) ->
  forall v, P v.
Proof.
  intros Hu Hn Hb Hnum Hs Ha Ho He. fix IH 1.
  intros [| |b|n|t|elems|props|name message];
    [exact Hu | exact Hn | apply Hb | apply Hnum | apply Hs | | | apply He].
  - apply Ha. induction elems as [|x rest IHrest]; constructor; [apply IH | exact IHrest].
  - apply Ho. induction props as [|[k x] rest IHrest]; constructor;
      [apply IH | exact IHrest].
Qed.

(** The loop of Array.prototype.join inside [ToString], on its own. *)
Fixpoint join_elements (first : bool) (l : list value) : completion string :=
  match l with
  | [] => Normal ""%string
  | x :: rest =>
      match (match x with
             | VUndefined | VNull => Normal ""%string
             | _ => ToString x
             end) with
      | Throw e => Throw e
      | Normal t =>
          match join_elements false rest with
          | Throw e => Throw e
          | Normal t' => Normal ((if first then "" else ",") ++ t ++ t')%string
          end
      end
  end.

Lemma ToString_array (elems : list value) :
  ToString (VArray elems) = join_elements true elems.
Proof. reflexivity. Qed.

(** ToString throws nothing but a TypeError. *)
Lemma ToString_throws :
  forall (v e : value), ToString v = Throw e -> exists msg, e = TypeError msg.
Proof.
  intros v. induction v as [| |b|n|t|elems IHelems|props _|name message]
    using value_nested_ind; intros e; simpl; try discriminate.
  - destruct b; discriminate.
  - change (join_elements true elems = Throw e -> exists msg, e = TypeError msg).
    generalize true as first.
    induction IHelems as [|x rest Hx _ IHrest]; intros first H; simpl in H;
      [discriminate|].
    destruct (match x with
              | VUndefined | VNull => Normal ""%string
              | _ => ToString x
              end) as [t|x'] eqn:Ex.
    + destruct (join_elements false rest) as [t'|e'] eqn:Erest; [discriminate|].
      injection H as <-. exact (IHrest false Erest).
    + injection H as <-. apply Hx. destruct x; try discriminate; exact Ex.
  - destruct (own_property props "toString"); [|discriminate].
    intros H. injection H as <-. eauto.
Qed.

Lemma thrown_for_is_Error (b : value) : exists name m, thrown_for b = VError name m.
Proof.
  unfold thrown_for. destruct (Get b "message") as [m|e] eqn:Hg.
  - unfold new_Error.
    destruct (ToString (or_else m (VString fallback_message))) as [t|e] eqn:Ht; [eauto|].
    destruct (ToString_throws _ _ Ht) as [msg ->]. unfold TypeError. eauto.
  - destruct b; simpl in Hg; try discriminate.
    + injection Hg as <-. unfold TypeError. eauto.
    + injection Hg as <-. unfold TypeError. eauto.
    + destruct (own_property props "message"); discriminate.
Qed.

Lemma failed_alerts (w : World) (s : State) (e : value) :
  failure w s = Some e -> alerts (submit_log w s) = alerts (catch_log e).
Proof.
  intros Hf. destruct (failed_run_log w s e Hf) as (pre & Hl & Ha & _).
  rewrite Hl, alerts_app, Ha. reflexivity.
Qed.

Lemma Get_message_defined (b : value) :
  b <> VNull -> b <> VUndefined -> exists m, Get b "message" = Normal m.
Proof.
  intros Hn Hu. destruct b; simpl; try congruence; eauto.
  destruct (own_property props "message"); eauto.
Qed.

Lemma thrown_for_unconvertible (b m x : value) :
  Get b "message" = Normal m -> ToBoolean m = true -> ToString m = Throw x ->
  thrown_for b = x.
Proof.
  intros Hg Hb Ht. unfold thrown_for, or_else, new_Error.
  rewrite Hg, Hb, Ht. reflexivity.
Qed.

(** C6, as the code has it.  When the POST is answered with a status
    outside 200-299 and a body that parses to a JSON value other than
    null, line 74 reads the body's [message].  If it is absent or falsy
    (the empty string, zero, false, null) the run fails with the fallback
    text.  If it is truthy the run fails with its conversion to a string
    (a non-empty string as it is), unless the conversion throws, as for an
    object with an own [toString] member: then the run fails with the
    TypeError of the conversion, whose message is alerted. *)
Theorem refused_post_message_or_fallback
    (w : World) (s : State) (r : Response) (b : value) :
  network w (create_request s) = Fulfilled r ->
  ok r = false ->
  json_body r = Fulfilled b ->
  b <> VNull ->
  b <> VUndefined ->
  exists m,
    Get b "message" = Normal m
    /\ (ToBoolean m = false -> fails_with_message w s "Failed to add customer")
    /\ (forall t, ToBoolean m = true -> ToString m = Normal t ->
          fails_with_message w s t)
    /\ (forall x, ToBoolean m = true -> ToString m = Throw x ->
          exists msg,
            x = TypeError msg
            /\ failure w s = Some x
            /\ alerts (submit_log w s) = [("Error: " ++ msg)%string])
    /\ (forall props, b = VObject props -> own_property props "message" = None ->
          fails_with_message w s "Failed to add customer")
    /\ (forall props t, b = VObject props ->
          own_property props "message" = Some (VString t) -> t <> ""%string ->
          fails_with_message w s t).
Proof.
  intros H Hok Hj Hn Hu.
  destruct (Get_message_defined b Hn Hu) as [m Hg].
  assert (ToBoolean m = false -> fails_with_message w s "Failed to add customer") as Hfalsy.
  { intros Hb. apply (refused_fails_with w s r b _ H Hok Hj).
    exact (thrown_for_falsy b m Hg Hb). }
  assert (forall t, ToBoolean m = true -> ToString m = Normal t ->
                    fails_with_message w s t) as Htruthy.
  { intros t Hb Ht. apply (refused_fails_with w s r b _ H Hok Hj).
    exact (thrown_for_truthy b m t Hg Hb Ht). }
  assert (forall x, ToBoolean m = true -> ToString m = Throw x ->
            exists msg,
              x = TypeError msg
              /\ failure w s = Some x
              /\ alerts (submit_log w s) = [("Error: " ++ msg)%string]) as Hthrows.
  { intros x Hb Ht.
    destruct (submit_log_not_ok w s r b H Hok Hj) as [_ Hf].
    rewrite (thrown_for_unconvertible b m x Hg Hb Ht) in Hf.
    destruct (ToString_throws m x Ht) as [msg ->].
    exists msg. split; [reflexivity|]. split; [exact Hf|].
    rewrite (failed_alerts w s _ Hf). reflexivity. }
  exists m. refine (conj Hg (conj Hfalsy (conj Htruthy (conj Hthrows (conj _ _))))).
  - intros props -> Hp. apply Hfalsy. simpl in Hg. rewrite Hp in Hg.
    injection Hg as <-. reflexivity.
  - intros props t -> Hp Ht. simpl in Hg. rewrite Hp in Hg. injection Hg as <-.
    apply Htruthy; [apply nonempty_truthy, Ht | reflexivity].
Qed.

(** A refused POST whose body is the empty object: the fallback text. *)
Lemma refused_post_message_or_fallback_witness :
  fails_with_message (Examples.world_refused 409 (VObject [])) Examples.ann_draft
    "Failed to add customer".
Proof.
  destruct (refused_post_message_or_fallback
              (Examples.world_refused 409 (VObject [])) Examples.ann_draft
              (mkResponse 409 (Fulfilled (VObject []))) (VObject [])
              eq_refl eq_refl eq_refl)
    as (m & _ & _ & _ & _ & Habsent & _); try discriminate.
  exact (Habsent [] eq_refl eq_refl).
Defined.

(** The three ways out of line 74 on sample bodies: a number as message is
    converted, an object with an own [toString] member cannot be, and zero
    is falsy. *)
Lemma refused_post_message_samples :
  fails_with_message
    (Examples.world_refused 400
       (VObject [("message"%string, VNumber (mkNumber true true "42"))]))
    Examples.ann_draft "42"
  /\ alerts (submit_log
               (Examples.world_refused 400
                  (VObject [("message"%string,
                             VObject [("toString"%string,
                                       VNumber (mkNumber true true "1"))])]))
               Examples.ann_draft)
     = ["Error: Cannot convert object to primitive value"%string]
  /\ fails_with_message
       (Examples.world_refused 400
          (VObject [("message"%string, VNumber (mkNumber false true "0"))]))
       Examples.ann_draft "Failed to add customer".
Proof. repeat split. Qed.

(** C6 fails as stated, both ways.  The body [{message: (empty string)}]
    has the field, and the run fails with the fallback text rather than
    with the field; the body [null] has no such field, and the run does not
    fail with the fallback text: reading [message] of null throws a
    TypeError, whose text is what the alert shows. *)
Lemma refused_post_neither_message_nor_fallback :
  (own_property [("message"%string, VString "")] "message" = Some (VString "")
   /\ ~ fails_with_message (Examples.world_refused 400 Examples.empty_message)
          Examples.ann_draft "")
  /\ (~ fails_with_message (Examples.world_refused 400 VNull) Examples.ann_draft
          "Failed to add customer"
      /\ failure (Examples.world_refused 400 VNull) Examples.ann_draft
         = Some (TypeError (nullish_read_message "null" "message"))).
Proof.
  repeat split; intros [Hf _]; discriminate Hf.
Qed.

(** A POST refused with a body that is valid JSON always ends in exactly
    one alert, whatever the body is (an object with or without [message],
    an array, a number, a string, null): what lines 73-74 throw is always
    an Error instance, whose message the [catch] clause alerts.  The
    handler's promise fulfils and the state is as before. *)
Theorem refused_post_always_alerts (w : World) (s : State) (r : Response) (b : value) :
  network w (create_request s) = Fulfilled r ->
  ok r = false ->
  json_body r = Fulfilled b ->
  exists name m,
    failure w s = Some (VError name m)
    /\ alerts (submit_log w s) = [("Error: " ++ m)%string]
    /\ submit_result w s = Fulfilled tt
    /\ submit_state w s = s.
Proof.
  intros H Hok Hj.
  destruct (submit_log_not_ok w s r b H Hok Hj) as [_ Hf].
  destruct (thrown_for_is_Error b) as (name & m & Hb). rewrite Hb in Hf.
  exists name, m. split; [exact Hf|].
  rewrite (failed_alerts w s _ Hf), submit_result_by_failure, Hf.
  repeat split. apply (failed_run_frame w s _ Hf).
Qed.

Lemma refused_post_always_alerts_witness :
  alerts (submit_log (Examples.world_refused 400 VNull) Examples.acme_draft)
    = [("Error: " ++ nullish_read_message "null" "message")%string]
  /\ submit_result (Examples.world_refused 400 VNull) Examples.acme_draft = Fulfilled tt.
Proof.
  destruct (refused_post_always_alerts (Examples.world_refused 400 VNull)
              Examples.acme_draft (mkResponse 400 (Fulfilled VNull)) VNull
              eq_refl eq_refl eq_refl) as (name & m & Hf & Ha & Hr & _).
  injection Hf as <- <-. split; assumption.
Defined.

Lemma catch_result_alert (e : value) :
  catch_result e = Fulfilled tt <-> alerts (catch_log e) <> [].
Proof.
  unfold catch_result, catch_log.
  destruct (Get e "message") as [m|x]; [|simpl; split; [discriminate | congruence]].
  destruct (error_text m) as [t|x]; simpl; split; congruence.
Qed.

(** The handler's promise fulfils exactly when the run ended in the reset or
    in an alert.  So a run that leaves the user without any sign (no reset,
    no alert) is a run whose promise rejects, with nobody to catch it:
    that happens when the caught value has no readable [message] or one
    that cannot be converted to a string. *)
Theorem promise_fulfils_iff_reset_or_alert (w : World) (s : State) :
  (submit_result w s = Fulfilled tt <->
     failure w s = None \/ alerts (submit_log w s) <> [])
  /\ (forall x, submit_result w s = Rejected x ->
        updates (submit_log w s) = [] /\ alerts (submit_log w s) = []
        /\ exists e, failure w s = Some e
                     /\ (Get e "message" = Throw x
                         \/ exists m, Get e "message" = Normal m /\ ToString m = Throw x)).
Proof.
  rewrite submit_result_by_failure.
  destruct (failure w s) as [e|] eqn:Hf.
  - rewrite (failed_alerts w s e Hf). split.
    + rewrite catch_result_alert. split; [auto | intros [Hn|Ha]; [discriminate | exact Ha]].
    + intros x Hx.
      destruct (failed_run_log w s e Hf) as (pre & Hl & Ha & Hu & _).
      destruct (catch_log_quiet e) as (_ & _ & Cu).
      rewrite Hl, updates_app, Hu, Cu.
      unfold catch_result, catch_log, error_text in *.
      destruct (Get e "message") as [m|y] eqn:Hg.
      * destruct (ToString m) as [t|y] eqn:Ht; [discriminate|].
        injection Hx as ->. repeat split. exists e. split; [reflexivity|].
        right. exists m. auto.
      * injection Hx as ->. repeat split. exists e. auto.
  - split; [split; auto | discriminate].
Qed.

(* ================================================================== *)
(** ** The controls of the page (lines 120-130 and 161-224) *)
(* ================================================================== *)

Module UI.
Import JS Async Page.
Local Open Scope list_scope.

(** What the user can do on the page. *)
Inductive Action : Type :=
| ClickAddCustomer                 (* line 123: onClick={() => setOpen(true)} *)
| CloseDialog                      (* line 163: onClose={() => setOpen(false)} *)
| ClickCancel                      (* line 216: onClick={() => setOpen(false)} *)
| ChangeFirstName (v : string)     (* line 185: setFirstName(e.target.value) *)
| ChangeLastName (v : string)      (* line 192 *)
| ChangeBusinessName (v : string)  (* line 199 *)
| ChangeEmail (v : string)         (* line 210 *)
| ClickCreate.                     (* line 218: onClick={handleAddCustomer} *)

(** The handler of each control, as created in a render whose state is [s]. *)
Definition handler (s : State) (a : Action) : M unit :=
  match a with
  | ClickAddCustomer => emit (EvSetOpen true)
  | CloseDialog => emit (EvSetOpen false)
  | ClickCancel => emit (EvSetOpen false)
  | ChangeFirstName v => emit (EvSetFirstName v)
  | ChangeLastName v => emit (EvSetLastName v)
  | ChangeBusinessName v => emit (EvSetBusinessName v)
  | ChangeEmail v => emit (EvSetEmail v)
  | ClickCreate => handleAddCustomer s
  end.

(** One action, handled to its end in world [w]: the state of the next
    render. *)
Definition act (w : World) (s : State) (a : Action) : State :=
  replay s (fst (call (handler s a) w)).

(** A moment of a session: the data the hook holds, what the user does,
    and how the world answers while the action is handled. *)
Record Step := mkStep
  { data_shown : option Customers;
    action : Action;
    world : World }.

(** A session: each action is handled to its end before the next one. *)
Definition session (s : State) (steps : list Step) : State :=
  fold_left (fun st step => act (world step) st (action step)) steps s.



(** The four fields of the draft. *)
Definition fields (s : State) : string * string * string * string :=
  (firstName s, lastName s, email s, businessName s).

(** No action of the session edits a field, and no Create goes through. *)
Fixpoint leaves_draft (s : State) (steps : list Step) : bool :=
  match steps with
  | [] => true
  | step :: rest =>
      match action step with
      | ClickAddCustomer | CloseDialog | ClickCancel =>
          leaves_draft (act (world step) s (action step)) rest
      | ClickCreate =>
          match failure (world step) s with
          | Some _ => leaves_draft (act (world step) s (action step)) rest
          | None => false
          end
      | _ => false
      end
  end.

(** The latest value an action of the list gives, or [start]. *)
Definition latest {A} (pick : Action -> option A) (acts : list Action) (start : A) : A :=
  fold_left (fun cur a => match pick a with Some v => v | None => cur end) acts start.

Definition sets_open (a : Action) : option bool :=
  match a with
  | ClickAddCustomer => Some true
  | CloseDialog | ClickCancel => Some false
  | _ => None
  end.

Definition types_firstName (a : Action) : option string :=
  match a with ChangeFirstName v => Some v | _ => None end.

Definition types_lastName (a : Action) : option string :=
  match a with ChangeLastName v => Some v | _ => None end.

Definition types_email (a : Action) : option string :=
  match a with ChangeEmail v => Some v | _ => None end.

Definition types_businessName (a : Action) : option string :=
  match a with ChangeBusinessName v => Some v | _ => None end.

Definition is_create (a : Action) : bool :=
  match a with ClickCreate => true | _ => false end.

End UI.

Import UI.

Lemma act_simple (w : World) (s : State) (a : Action) :
  is_create a = false ->
  act w s a =
    mkState (match sets_open a with Some b => b | None => open s end)
            (match types_firstName a with Some v => v | None => firstName s end)
            (match types_lastName a with Some v => v | None => lastName s end)
            (match types_email a with Some v => v | None => email s end)
            (match types_businessName a with Some v => v | None => businessName s end).
Proof. destruct a, s; intros H; try discriminate; reflexivity. Qed.

Lemma act_create (w : World) (s : State) : act w s ClickCreate = submit_state w s.
Proof. reflexivity. Qed.

(** Handling the actions of a session that has no Create: field by field,
    the latest value typed, and the dialog as the latest click left it. *)
Lemma session_without_create (steps : list Step) :
  forall s,
    forallb (fun step => negb (is_create (action step))) steps = true ->
    session s steps =
      mkState (latest sets_open (map action steps) (open s))
              (latest types_firstName (map action steps) (firstName s))
              (latest types_lastName (map action steps) (lastName s))
              (latest types_email (map action steps) (email s))
              (latest types_businessName (map action steps) (businessName s)).
Proof.
  unfold session, latest.
  induction steps as [|step rest IH]; intros s H; simpl in *.
  - destruct s; reflexivity.
  - apply andb_true_iff in H as [Ha Hrest]. apply negb_true_iff in Ha.
    rewrite (IH _ Hrest), (act_simple _ s _ Ha). reflexivity.
Qed.

(** Closing the dialog does not discard the draft.  Through any sequence
    of Add Customer, Cancel, closing the dialog and Create attempts that
    fail, the four fields stay what they were: a draft left by Cancel is
    there again when the dialog is reopened. *)
Theorem draft_survives_closing (steps : list Step) :
  forall s, leaves_draft s steps = true -> fields (session s steps) = fields s.
Proof.
  unfold session. induction steps as [|step rest IH]; intros s H; [reflexivity|].
  simpl in *.
  destruct (action step) eqn:Ea; try discriminate.
  - rewrite (IH _ H). destruct s; reflexivity.
  - rewrite (IH _ H). destruct s; reflexivity.
  - rewrite (IH _ H). destruct s; reflexivity.
  - destruct (failure (world step) s) as [e|] eqn:Hf; [|discriminate].
    rewrite (IH _ H), act_create.
    destruct (failed_run_frame (world step) s e Hf) as [_ ->]. reflexivity.
Qed.

Lemma draft_survives_closing_witness :
  session Examples.acme_draft
    [mkStep None ClickCancel Examples.world_created;
     mkStep None ClickCreate Examples.world_bad_gateway;
     mkStep None CloseDialog Examples.world_created;
     mkStep None ClickAddCustomer Examples.world_created]
  = Examples.acme_draft.
Proof.
  pose proof (draft_survives_closing
                [mkStep None ClickCancel Examples.world_created;
                 mkStep None ClickCreate Examples.world_bad_gateway;
                 mkStep None CloseDialog Examples.world_created;
                 mkStep None ClickAddCustomer Examples.world_created]
                Examples.acme_draft eq_refl) as H.
  destruct (session Examples.acme_draft _) as [o f l e b] eqn:E.
  unfold fields in H. simpl in H. injection H as -> -> -> ->.
  assert (o = true) as -> by (apply (f_equal open) in E; simpl in E; rewrite <- E; reflexivity).
  reflexivity.
Defined.

(** Typing is last-write-wins, field by field.  After any sequence of
    edits, openings and closings (no Create), each field holds the latest
    value typed into it, or its earlier value if nothing was typed into
    it, whatever was typed into the other fields and in whatever order;
    the dialog is open exactly as the latest opening or closing left it. *)
Theorem edits_latest_wins (s : State) (steps : list Step) :
  forallb (fun step => negb (is_create (action step))) steps = true ->
  open (session s steps) = latest sets_open (map action steps) (open s)
  /\ firstName (session s steps)
     = latest types_firstName (map action steps) (firstName s)
  /\ lastName (session s steps)
     = latest types_lastName (map action steps) (lastName s)
  /\ email (session s steps) = latest types_email (map action steps) (email s)
  /\ businessName (session s steps)
     = latest types_businessName (map action steps) (businessName s).
Proof.
  intros H. rewrite (session_without_create steps s H). repeat split.
Qed.

Lemma edits_latest_wins_witness :
  firstName (session initial_state
               [mkStep None (ChangeFirstName "An") Examples.world_created;
                mkStep None (ChangeEmail "ann@x.com") Examples.world_created;
                mkStep None (ChangeFirstName "Ann") Examples.world_created])
  = "Ann"%string.
Proof.
  destruct (edits_latest_wins initial_state
              [mkStep None (ChangeFirstName "An") Examples.world_created;
               mkStep None (ChangeEmail "ann@x.com") Examples.world_created;
               mkStep None (ChangeFirstName "Ann") Examples.world_created]
              eq_refl) as (_ & Hf & _).
  rewrite Hf. reflexivity.
Defined.

(** What is typed is what is sent.  After any sequence of edits, openings
    and closings, a click on Create sends first of all a request whose
    body, read back, holds the latest value typed into each field (or the
    field's earlier value), the business name being absent when that
    value is empty. *)
Theorem create_sends_latest_typed (s : State) (steps : list Step) (w : World) :
  forallb (fun step => negb (is_create (action step))) steps = true ->
  exists req t rest,
    fst (call (handler (session s steps) ClickCreate) w) = EvFetch req :: rest
    /\ body req = Some t
    /\ read_customer t =
         Some (latest types_firstName (map action steps) (firstName s),
               latest types_lastName (map action steps) (lastName s),
               latest types_email (map action steps) (email s),
               let b := latest types_businessName (map action steps) (businessName s) in
               if String.eqb b "" then None else Some b).
Proof.
  intros H.
  destruct (submit_log_head w (session s steps)) as [rest Hl].
  exists (create_request (session s steps)). eexists. eexists.
  split; [exact Hl|]. split; [apply create_request_text|].
  rewrite read_customer_text. unfold sent_businessName.
  rewrite (session_without_create steps s H). reflexivity.
Qed.

Lemma create_sends_latest_typed_witness :
  exists req rest,
    fst (call (handler
                 (session initial_state
                    [mkStep None (ChangeFirstName "Ann") Examples.world_created;
                     mkStep None (ChangeBusinessName "Acme") Examples.world_created;
                     mkStep None (ChangeBusinessName "") Examples.world_created])
                 ClickCreate) Examples.world_created)
      = EvFetch req :: rest
    /\ option_map read_customer (body req)
       = Some (Some ("Ann"%string, ""%string, ""%string, None)).
Proof.
  destruct (create_sends_latest_typed initial_state
              [mkStep None (ChangeFirstName "Ann") Examples.world_created;
               mkStep None (ChangeBusinessName "Acme") Examples.world_created;
               mkStep None (ChangeBusinessName "") Examples.world_created]
              Examples.world_created eq_refl) as (req & t & rest & Hl & Hb & Hr).
  exists req, rest. split; [exact Hl|]. rewrite Hb. simpl. rewrite Hr. reflexivity.
Defined.



